(** * The Go environment of [estimator/trainer/game/go.py]

    A shallow embedding of the action codec, the history tracker and the
    [GoGame] state machine, and the properties of the specification that
    hold (or fail) on it.

    - Python integers are [Z]; [//] and [%] are [Z.div] and [Z.modulo]
      (both round toward minus infinity, as in Python), with the
      [ZeroDivisionError] of a zero divisor written out.
    - The scores are Python floats that only ever hold the komi (7.5, 5.5
      or 0) plus the engine's area score; they are modelled as rationals
      [Q], on which the sign tests and the zero test of the source are
      exact.
    - A numpy array of shape [(n, n, d)] is the list of its [d] slices
      [a[:, :, k]], each a list of rows.  Element types (int8, int64) are
      not modelled: every cell is an integer.
    - The board engine [pachi_py] is not part of the repository: it is an
      interface ([pachi_py.Engine]), and what a theorem needs from it is
      stated as a law of that interface. *)

From Stdlib Require Import ZArith QArith Qabs Lia.
From stdpp Require Import base option list gmap strings.

Local Open Scope Z_scope.

(** ** Exceptions and results *)

(** The exceptions of the board engine. *)
Inductive pachi_exception :=
  | IllegalMove          (* pachi_py.IllegalMove *)
  | PachiError.          (* any other failure inside the engine *)

(** The exceptions a call of this module can end with. *)
Inductive exception :=
  | Pachi (e : pachi_exception)
  | KeyError
  | ValueError
  | IndexError
  | ZeroDivisionError
  | ReferenceError.      (* a reference to no object of the store *)

Inductive result (A : Type) :=
  | Ok (a : A)
  | Raise (e : exception).
Arguments Ok {A} a.
Arguments Raise {A} e.

#[global] Instance pachi_exception_eq_dec : EqDecision pachi_exception.
Proof. solve_decision. Defined.
#[global] Instance exception_eq_dec : EqDecision exception.
Proof. solve_decision. Defined.

#[global] Instance result_ret : MRet result := @Ok.
#[global] Instance result_bind : MBind result := λ A B f r,
  match r with
  | Ok a => f a
  | Raise e => Raise e
  end.

(** A method of an object of type [S]: it returns or raises, and in both
    cases leaves the object in some state (an exception does not undo the
    assignments made before it). *)
Definition method (S A : Type) : Type := S → result A * S.

#[global] Instance method_ret S : MRet (method S) := λ A a s, (Ok a, s).
#[global] Instance method_bind S : MBind (method S) := λ A B f m s,
  match m s with
  | (Ok a, s') => f a s'
  | (Raise e, s') => (Raise e, s')
  end.

Definition gets {S A} (f : S → A) : method S A := λ s, (Ok (f s), s).
Definition modify {S} (f : S → S) : method S unit := λ s, (Ok tt, f s).
Definition lift {S A} (r : result A) : method S A := λ s, (r, s).

(** [try: m except e: h]. *)
Definition try_except {S A} (m : method S A) (catches : exception → bool)
    (h : exception → method S A) : method S A := λ s,
  match m s with
  | (Raise e, s') => if catches e then h e s' else (Raise e, s')
  | r => r
  end.

(** ** Python and numpy primitives *)

(** [a // b] and [a % b]. *)
Definition floordiv (a b : Z) : result Z :=
  if b =? 0 then Raise ZeroDivisionError else Ok (a / b).
Definition pymod (a b : Z) : result Z :=
  if b =? 0 then Raise ZeroDivisionError else Ok (a mod b).

(** [l[k]] on a sequence: negative indices count from the end. *)
Definition getitem {A} (l : list A) (k : Z) : result A :=
  let k' := if k <? 0 then k + Z.of_nat (length l) else k in
  if k' <? 0 then Raise IndexError
  else match l !! Z.to_nat k' with
       | Some x => Ok x
       | None => Raise IndexError
       end.

Definition plane : Type := list (list Z).
Definition ndarray : Type := list plane.

(** The extents of a slice: the lengths of its rows. *)
Definition shape (p : plane) : list nat := length <$> p.

(** A slice of [n] rows of [n] cells. *)
Definition square (n : Z) (p : plane) : Prop :=
  shape p = replicate (Z.to_nat n) (Z.to_nat n).

Definition const_plane (n v : Z) : plane :=
  replicate (Z.to_nat n) (replicate (Z.to_nat n) v).

(** [np.full((n, n, d), v)]; [np.zeros((n, n, d))] is the case [v = 0]. *)
Definition np_full (n d v : Z) : result ndarray :=
  if (n <? 0) || (d <? 0) then Raise ValueError
  else Ok (replicate (Z.to_nat d) (const_plane n v)).
Definition np_zeros (n d : Z) : result ndarray := np_full n d 0.

(** [np.concatenate((a, b), axis=-1)]: the first two extents must agree.
    (An array of depth 0 carries no extents in this representation and is
    accepted; the arrays of this program have depth 1, 16 or 17.) *)
Definition np_concatenate (a b : ndarray) : result ndarray :=
  match a ++ b with
  | [] => Ok []
  | p :: ps =>
      if forallb (λ q, bool_decide (shape q = shape p)) ps
      then Ok (a ++ b) else Raise ValueError
  end.

(** [np.roll(a, 1, axis=-1)]: slice [k] moves to [k+1], the last one
    wraps around to index 0.  The result is a new array. *)
Definition np_roll (a : ndarray) : ndarray :=
  match last a with
  | None => []
  | Some p => p :: take (length a - 1)%nat a
  end.

(** [a[:, :, 0] = p] where [p] has the extents of a slice of [a].
    (numpy would also broadcast a smaller [p]; the engine encodes full
    boards, and a [p] of other extents is rejected here.) *)
Definition setitem0 (a : ndarray) (p : plane) : result ndarray :=
  match a with
  | [] => Raise IndexError
  | q :: qs =>
      if bool_decide (shape p = shape q) then Ok (p :: qs)
      else Raise ValueError
  end.

(** Comparisons of floats, as booleans. *)
Definition Qltb (x y : Q) : bool :=
  match (x ?= y)%Q with Lt => true | _ => false end.
Definition Qgtb (x y : Q) : bool := Qltb y x.
Definition Qeqb (x y : Q) : bool :=
  match (x ?= y)%Q with Eq => true | _ => false end.

(** ** The board engine *)

Module pachi_py.

(** What [go.py] uses of [pachi_py].  Coordinates and colours are
    integers; a board is an opaque value: [play] returns a board and
    raises [IllegalMove] when the engine rejects the move. *)
Class Engine := {
  Board : Type;
  null : Board;                         (* a handle that owns no board *)
  PASS_COORD : Z;
  RESIGN_COORD : Z;
  CreateBoard : Z → result Board;
  size : Board → Z;
  coord_to_ij : Board → Z → result (Z * Z);
  ij_to_coord : Board → Z → Z → result Z;
  play : Board → Z → Z → result Board;
  clone : Board → Board;
  encode : Board → list plane;          (* shape (3, size, size) *)
  is_terminal : Board → bool;
  official_score : Board → Q;
  get_legal_coords : Board → Z → bool → list Z;
  stone_other : Z → Z;
}.

Definition BLACK : Z := 1.
Definition WHITE : Z := 2.

End pachi_py.

Section Codec.
Context `{E : pachi_py.Engine}.

Definition _pass_action (board_size : Z) : Z := board_size ^ 2.

Definition _resign_action (board_size : Z) : Z := board_size ^ 2 + 1.

Definition _coord_to_action (board : pachi_py.Board) (c : Z) : result Z :=
  if c =? pachi_py.PASS_COORD then
    Ok (_pass_action (pachi_py.size board))
  else if c =? pachi_py.RESIGN_COORD then
    Ok (_resign_action (pachi_py.size board))
  else
    '(i, j) ← pachi_py.coord_to_ij board c;
    Ok (i * pachi_py.size board + j).

Definition _action_to_coord (board : pachi_py.Board) (a : Z) : result Z :=
  if a =? _pass_action (pachi_py.size board) then
    Ok pachi_py.PASS_COORD
  else if a =? _resign_action (pachi_py.size board) then
    Ok pachi_py.RESIGN_COORD
  else
    i ← floordiv a (pachi_py.size board);
    j ← pymod a (pachi_py.size board);
    pachi_py.ij_to_coord board i j.

End Codec.

(** ** The state tensor *)

(** [HISTORY]: the number of past positions kept for each player. *)
Definition HISTORY : Z := 8.

Definition _format_state (history : ndarray) (player_color board_size : Z)
    : result ndarray :=
  color_to_play ← np_full board_size 1 (player_color - 1);
  np_concatenate history color_to_play.

(** ** The game *)

(** The attributes of a [GoGame] object.  The board handle and the two
    arrays are held by value ([GoGame] below) or by reference (the objects
    of the module [Store]). *)
Record GoGameOf (B A : Type) := {
  board_size : Z;
  player_color : Z;
  komi : Q;
  board : B;
  done : bool;
  history : A;
  state : A;
}.
Arguments board_size {B A} _.
Arguments player_color {B A} _.
Arguments komi {B A} _.
Arguments board {B A} _.
Arguments done {B A} _.
Arguments history {B A} _.
Arguments state {B A} _.

Section Attributes.
Context {B A : Type}.
Implicit Types self : GoGameOf B A.

(** [self.x = v], one attribute at a time. *)
Definition set_player_color (v : Z) self : GoGameOf B A :=
  {| board_size := board_size self; player_color := v; komi := komi self;
     board := board self; done := done self; history := history self;
     state := state self |}.
Definition set_komi (v : Q) self : GoGameOf B A :=
  {| board_size := board_size self; player_color := player_color self;
     komi := v; board := board self; done := done self;
     history := history self; state := state self |}.
Definition set_board (v : B) self : GoGameOf B A :=
  {| board_size := board_size self; player_color := player_color self;
     komi := komi self; board := v; done := done self;
     history := history self; state := state self |}.
Definition set_done (v : bool) self : GoGameOf B A :=
  {| board_size := board_size self; player_color := player_color self;
     komi := komi self; board := board self; done := v;
     history := history self; state := state self |}.
Definition set_history (v : A) self : GoGameOf B A :=
  {| board_size := board_size self; player_color := player_color self;
     komi := komi self; board := board self; done := done self;
     history := v; state := state self |}.
Definition set_state (v : A) self : GoGameOf B A :=
  {| board_size := board_size self; player_color := player_color self;
     komi := komi self; board := board self; done := done self;
     history := history self; state := v |}.

(** 7.5 for boards of side 14 to 19, 5.5 for 9 to 13, otherwise 0. *)
Definition _komi self : Q :=
  if (14 <=? board_size self) && (board_size self <=? 19) then 15 # 2
  else if (9 <=? board_size self) && (board_size self <=? 13) then 11 # 2
  else 0.

End Attributes.

Definition colormap (player_color : string) : result Z :=
  if String.eqb player_color "black" then Ok pachi_py.BLACK
  else if String.eqb player_color "white" then Ok pachi_py.WHITE
  else Raise KeyError.

Section GoGame.
Context `{E : pachi_py.Engine}.

(** Python's [str] on a float. *)
Variable str : Q → string.

(** A game whose attributes are values. *)
Definition GoGame : Type := GoGameOf pachi_py.Board ndarray.

Definition reset : method GoGame ndarray :=
  k ← gets _komi;
  modify (set_komi k);;
  n ← gets board_size;
  b ← lift (pachi_py.CreateBoard n);
  modify (set_board b);;
  modify (set_done false);;
  n ← gets board_size;
  h ← lift (np_zeros n (HISTORY * 2));
  modify (set_history h);;
  n ← gets board_size;
  s ← lift (np_zeros n (HISTORY * 2 + 1));
  modify (set_state s);;
  gets state.

(** [GoGame(player_color, board_size)].  The attributes that [reset]
    assigns do not exist before it runs; [reset] reads none of them
    ([reset_seed] below), so they are seeded with arbitrary values.  An
    exception leaves no object. *)
Definition __init__ (player_color : string) (board_size : Z)
    : result GoGame :=
  pc ← colormap player_color;
  match reset {| board_size := board_size; player_color := pc;
                 komi := 0; board := pachi_py.null; done := false;
                 history := []; state := [] |} with
  | (Ok _, self) => Ok self
  | (Raise e, _) => Raise e
  end.

(** The copy holds [self.board.clone()] and deep copies of the other
    attributes, which are values here.  (The object graph, where a copy
    can alias, is the subject of the module [Store].) *)
Definition __deepcopy__ (self : GoGame) : GoGame :=
  set_board (pachi_py.clone (board self)) self.

Definition _act (action : Z) : method GoGame unit :=
  b ← gets board;
  c ← lift (_action_to_coord b action);
  pc ← gets player_color;
  b' ← lift (pachi_py.play b c pc);
  modify (set_board b');;
  b ← gets board;
  let board := pachi_py.encode b in
  pc ← gets player_color;
  let color := pc - 1 in
  h ← gets history;
  modify (set_history (np_roll h));;
  p ← lift (getitem board color);
  h ← gets history;
  h' ← lift (setitem0 h p);
  modify (set_history h');;
  pc ← gets player_color;
  modify (set_player_color (pachi_py.stone_other pc)).

Definition play_action (action : Z) : method GoGame (ndarray * bool) :=
  d ← gets done;
  (if negb d then
     try_except (_act action)
       (λ e, bool_decide (e = Pachi IllegalMove))
       (λ e, lift (Raise e))
   else mret tt);;
  b ← gets board;
  modify (set_done (pachi_py.is_terminal b));;
  h ← gets history;
  pc ← gets player_color;
  n ← gets board_size;
  s ← lift (_format_state h pc n);
  modify (set_state s);;
  s ← gets state;
  d ← gets done;
  mret (s, d).

Definition get_legal_actions (self : GoGame) : result (list Z) :=
  let legal_moves :=
    pachi_py.get_legal_coords (board self) (player_color self) true in
  mapM (_coord_to_action (board self)) legal_moves.

Definition get_reward (self : GoGame) : Z :=
  let score := (komi self + pachi_py.official_score (board self))%Q in
  let white_wins := Qgtb score 0 in
  let black_wins := Qltb score 0 in
  let player_wins :=
    (white_wins && (player_color self =? pachi_py.WHITE))
    || (black_wins && (player_color self =? pachi_py.BLACK)) in
  if player_wins then 1 else if xorb white_wins black_wins then -1 else 0.

Definition players (b : bool) : string := if b then "W" else "B".

Definition get_result_string (self : GoGame) : string :=
  let score := (komi self + pachi_py.official_score (board self))%Q in
  let winner := players (Qgtb score 0) in
  if Qeqb score 0 then
    winner +:+ "+" +:+ players (negb (Qgtb score 0))
  else
    winner +:+ "+" +:+ str (Qabs score).

Definition get_states (self : GoGame) : ndarray := state self.

End GoGame.

(** [play_action] called with each action of a list in turn, whatever the
    outcome of each call. *)
Definition play_actions `{E : pachi_py.Engine} (actions : list Z)
    (self : GoGame) : GoGame :=
  foldl (λ g a, (play_action a g).2) self actions.

(** [komi + official_score], the quantity both [get_reward] and
    [get_result_string] test. *)
Definition score `{E : pachi_py.Engine} (self : GoGame) : Q :=
  (komi self + pachi_py.official_score (board self))%Q.

(** ** Laws of the engine *)

(** The coordinate functions of the engine are inverse to each other on
    the points of the board, and no point is a sentinel. *)
Class CodecLaws `{E : pachi_py.Engine} : Prop := {
  pass_not_resign : pachi_py.PASS_COORD ≠ pachi_py.RESIGN_COORD;
  coord_of_point : ∀ b i j,
    0 ≤ i < pachi_py.size b → 0 ≤ j < pachi_py.size b →
    ∃ c, pachi_py.ij_to_coord b i j = Ok c
         ∧ c ≠ pachi_py.PASS_COORD ∧ c ≠ pachi_py.RESIGN_COORD
         ∧ pachi_py.coord_to_ij b c = Ok (i, j);
}.

(** Boards keep the side they were created with, their encoding has one
    slice per colour and one for the empty points, each of the side of the
    board, and [stone_other] swaps the two colours. *)
Class BoardLaws `{E : pachi_py.Engine} : Prop := {
  size_CreateBoard : ∀ n b, pachi_py.CreateBoard n = Ok b → pachi_py.size b = n;
  size_play : ∀ b c col b',
    pachi_py.play b c col = Ok b' → pachi_py.size b' = pachi_py.size b;
  encode_shape : ∀ b,
    length (pachi_py.encode b) = 3%nat
    ∧ Forall (square (pachi_py.size b)) (pachi_py.encode b);
  stone_other_BLACK : pachi_py.stone_other pachi_py.BLACK = pachi_py.WHITE;
  stone_other_WHITE : pachi_py.stone_other pachi_py.WHITE = pachi_py.BLACK;
}.

(** ** The object store

    The objects of a run with their identities: boards, arrays and
    [GoGame] objects live in a store and are held by reference, so two
    objects can share a board or an array, and a write through one
    reference is seen through every other.  [np.roll], [np.concatenate],
    [np.zeros], [CreateBoard] and [clone] make new objects;
    [a[:, :, 0] = p] changes the array [a] in place.  Whether the engine's
    [play] changes the board it is given and returns it, or returns a new
    board, is left open ([in_place]). *)
Module Store.

Abbreviation loc := positive.

Section Store.
Context `{E : pachi_py.Engine}.
Variable in_place : bool.

Record heap := {
  boards : gmap loc pachi_py.Board;
  arrays : gmap loc ndarray;
  objects : gmap loc (GoGameOf loc loc);
}.

Definition set_boards (m : gmap loc pachi_py.Board) (h : heap) : heap :=
  {| boards := m; arrays := arrays h; objects := objects h |}.
Definition set_arrays (m : gmap loc ndarray) (h : heap) : heap :=
  {| boards := boards h; arrays := m; objects := objects h |}.
Definition set_objects (m : gmap loc (GoGameOf loc loc)) (h : heap) : heap :=
  {| boards := boards h; arrays := arrays h; objects := m |}.

Definition empty_heap : heap := {| boards := ∅; arrays := ∅; objects := ∅ |}.

(** A new object gets an identity that is not in use. *)
Definition new_board (b : pachi_py.Board) : method heap loc := λ h,
  let l := fresh (dom (boards h)) in
  (Ok l, set_boards (<[l:=b]> (boards h)) h).
Definition new_array (a : ndarray) : method heap loc := λ h,
  let l := fresh (dom (arrays h)) in
  (Ok l, set_arrays (<[l:=a]> (arrays h)) h).
Definition new_object (o : GoGameOf loc loc) : method heap loc := λ h,
  let l := fresh (dom (objects h)) in
  (Ok l, set_objects (<[l:=o]> (objects h)) h).

Definition the_board (l : loc) : method heap pachi_py.Board := λ h,
  match boards h !! l with
  | Some b => (Ok b, h)
  | None => (Raise ReferenceError, h)
  end.
Definition the_array (l : loc) : method heap ndarray := λ h,
  match arrays h !! l with
  | Some a => (Ok a, h)
  | None => (Raise ReferenceError, h)
  end.

(** A write in place. *)
Definition put_board (l : loc) (b : pachi_py.Board) : method heap unit :=
  λ h, (Ok tt, set_boards (<[l:=b]> (boards h)) h).
Definition put_array (l : loc) (a : ndarray) : method heap unit :=
  λ h, (Ok tt, set_arrays (<[l:=a]> (arrays h)) h).

(** [self.x] and [self.x = v]. *)
Definition getattr {A} (self : loc) (x : GoGameOf loc loc → A)
    : method heap A := λ h,
  match objects h !! self with
  | Some o => (Ok (x o), h)
  | None => (Raise ReferenceError, h)
  end.
Definition setattr (self : loc) (set : GoGameOf loc loc → GoGameOf loc loc)
    : method heap unit := λ h,
  match objects h !! self with
  | Some o => (Ok tt, set_objects (<[self:=set o]> (objects h)) h)
  | None => (Raise ReferenceError, h)
  end.

(** [board.play(c, col)]. *)
Definition board_play (board : loc) (c col : Z) : method heap loc :=
  b ← the_board board;
  b' ← lift (pachi_py.play b c col);
  if in_place then put_board board b';; mret board else new_board b'.

Definition _format_state (history : loc) (player_color board_size : Z)
    : method heap loc :=
  h ← the_array history;
  color_to_play ← lift (np_full board_size 1 (player_color - 1));
  final_state ← lift (np_concatenate h color_to_play);
  new_array final_state.

Definition reset (self : loc) : method heap loc :=
  k ← getattr self _komi;
  setattr self (set_komi k);;
  n ← getattr self board_size;
  b ← lift (pachi_py.CreateBoard n);
  lb ← new_board b;
  setattr self (set_board lb);;
  setattr self (set_done false);;
  n ← getattr self board_size;
  h ← lift (np_zeros n (HISTORY * 2));
  lh ← new_array h;
  setattr self (set_history lh);;
  n ← getattr self board_size;
  s ← lift (np_zeros n (HISTORY * 2 + 1));
  ls ← new_array s;
  setattr self (set_state ls);;
  getattr self state.

(** [GoGame(player_color, board_size)]: the new object, then [reset] on
    it.  The attributes [reset] assigns are seeded with a reference that
    [reset] never follows. *)
Definition __init__ (player_color : string) (board_size : Z)
    : method heap loc :=
  pc ← lift (colormap player_color);
  self ← new_object {| board_size := board_size; player_color := pc;
                       komi := 0; board := 1%positive; done := false;
                       history := 1%positive; state := 1%positive |};
  reset self;;
  mret self.

(** [copy.deepcopy(self)]: the attributes are copied in the order they
    were assigned.  Integers, floats and booleans are shared (they cannot
    change); the board is [self.board.clone()]; an array is copied, once
    ([memo]): were [state] the very array [history], the copy's would be
    one array too.  The new object enters the store with its attributes
    set. *)
Definition __deepcopy__ (self : loc) : method heap loc :=
  n ← getattr self board_size;
  pc ← getattr self player_color;
  k ← getattr self komi;
  lb ← getattr self board;
  b ← the_board lb;
  lb' ← new_board (pachi_py.clone b);
  d ← getattr self done;
  lh ← getattr self history;
  h ← the_array lh;
  lh' ← new_array h;
  ls ← getattr self state;
  ls' ← (if decide (ls = lh) then mret lh'
         else s ← the_array ls; new_array s);
  new_object {| board_size := n; player_color := pc; komi := k;
                board := lb'; done := d; history := lh'; state := ls' |}.

Definition _act (self : loc) (action : Z) : method heap unit :=
  lb ← getattr self board;
  b ← the_board lb;
  c ← lift (_action_to_coord b action);
  pc ← getattr self player_color;
  lb' ← board_play lb c pc;
  setattr self (set_board lb');;
  lb ← getattr self board;
  b ← the_board lb;
  let board := pachi_py.encode b in
  pc ← getattr self player_color;
  let color := pc - 1 in
  lh ← getattr self history;
  h ← the_array lh;
  lh' ← new_array (np_roll h);
  setattr self (set_history lh');;
  p ← lift (getitem board color);
  lh ← getattr self history;
  h ← the_array lh;
  h' ← lift (setitem0 h p);
  put_array lh h';;
  pc ← getattr self player_color;
  setattr self (set_player_color (pachi_py.stone_other pc)).

Definition play_action (self : loc) (action : Z)
    : method heap (loc * bool) :=
  d ← getattr self done;
  (if negb d then
     try_except (_act self action)
       (λ e, bool_decide (e = Pachi IllegalMove))
       (λ e, lift (Raise e))
   else mret tt);;
  lb ← getattr self board;
  b ← the_board lb;
  setattr self (set_done (pachi_py.is_terminal b));;
  lh ← getattr self history;
  pc ← getattr self player_color;
  n ← getattr self board_size;
  ls ← _format_state lh pc n;
  setattr self (set_state ls);;
  ls ← getattr self state;
  d ← getattr self done;
  mret (ls, d).

(** [self.state.copy()]: a new array with the contents of the state. *)
Definition get_states (self : loc) : method heap loc :=
  ls ← getattr self state;
  s ← the_array ls;
  new_array s.

(** The attributes of an object with the board and the arrays they refer
    to: the game as the pure functions above see it. *)
Definition view (h : heap) (self : loc) : option GoGame :=
  o ← objects h !! self;
  b ← boards h !! board o;
  hv ← arrays h !! history o;
  sv ← arrays h !! state o;
  Some {| board_size := board_size o; player_color := player_color o;
          komi := komi o; board := b; done := done o; history := hv;
          state := sv |}.

(** A call of a method of an object, and a sequence of calls on one
    object, whatever each call returns or raises. *)
Inductive call :=
  | Play (action : Z)
  | Reset.

Definition exec (self : loc) (c : call) (h : heap) : heap :=
  match c with
  | Play action => (play_action self action h).2
  | Reset => (reset self h).2
  end.

Definition run (self : loc) (calls : list call) (h : heap) : heap :=
  foldl (λ h c, exec self c h) h calls.

(** Calls on several objects, in the order they are made. *)
Definition run_all (calls : list (loc * call)) (h : heap) : heap :=
  foldl (λ h lc, exec lc.1 lc.2 h) h calls.

(** The calls made on [self] among them. *)
Definition calls_on (self : loc) (calls : list (loc * call)) : list call :=
  (filter (λ lc, lc.1 = self) calls).*2.

End Store.

End Store.

(** ** Notions used in the statements *)

(** The side a player was configured with is ahead ([favourable]) or
    behind ([unfavourable]) on a score. *)
Definition favourable (color : string) (s : Q) : Prop :=
  (color = "black" ∧ (s < 0)%Q) ∨ (color = "white" ∧ (0 < s)%Q).
Definition unfavourable (color : string) (s : Q) : Prop :=
  (color = "black" ∧ (0 < s)%Q) ∨ (color = "white" ∧ (s < 0)%Q).

(** The reward of a finished game follows the colour given to the
    constructor: the game is built for [color], fed [actions], and is
    over. *)
Definition reward_follows_configured `{E : pachi_py.Engine}
    (color : string) (n : Z) (actions : list Z) : Prop :=
  ∀ g0, __init__ color n = Ok g0 →
    done (play_actions actions g0) = true →
    (favourable color (score (play_actions actions g0)) →
       get_reward (play_actions actions g0) = 1)
    ∧ (unfavourable color (score (play_actions actions g0)) →
       get_reward (play_actions actions g0) = -1).

(** The move [a] cannot be made in [self]: converting it to a coordinate,
    or playing that coordinate, raises [e]. *)
Definition move_fails `{E : pachi_py.Engine} (self : GoGame) (a : Z)
    (e : exception) : Prop :=
  _action_to_coord (board self) a = Raise e
  ∨ ∃ c, _action_to_coord (board self) a = Ok c
         ∧ pachi_py.play (board self) c (player_color self) = Raise e.

(** The codec itself rejects the action [a]: an exception that is not the
    engine's is raised by [_action_to_coord], and [play_action] ends with
    it in an unchanged state. *)
Definition codec_rejects `{E : pachi_py.Engine} (self : GoGame) (a : Z)
    : Prop :=
  ∃ e, (∀ pe, e ≠ Pachi pe)
       ∧ _action_to_coord (board self) a = Raise e
       ∧ play_action a self = (Raise e, self).

(** The history holds [2 * HISTORY] slices of the side of the board. *)
Definition history_ok `{E : pachi_py.Engine} (self : GoGame) : Prop :=
  length (history self) = Z.to_nat (2 * HISTORY)
  ∧ Forall (square (board_size self)) (history self).

(** What every object keeps between calls. *)
Definition consistent `{E : pachi_py.Engine} (self : GoGame) : Prop :=
  0 ≤ board_size self
  ∧ pachi_py.size (board self) = board_size self
  ∧ (player_color self = pachi_py.BLACK ∨ player_color self = pachi_py.WHITE)
  ∧ history_ok self.

(** The objects a caller can hold: a constructed one, and what [reset]
    and [play_action] leave of one, whether they return or raise. *)
Inductive reachable `{E : pachi_py.Engine} : GoGame → Prop :=
  | reachable_init color n self :
      __init__ color n = Ok self → reachable self
  | reachable_reset self r self' :
      reachable self → reset self = (r, self') → reachable self'
  | reachable_play self a r self' :
      reachable self → play_action a self = (r, self') → reachable self'.

(** What a method of the object [self] may do to the store: the other
    objects, the arrays and the boards that were there stay as they were,
    but for the board [self] holds (the engine may change it where it
    is); [self] still refers to that board or to a new one, and refers to
    boards and arrays of the store if it did. *)
Definition frame `{E : pachi_py.Engine} (self : Store.loc)
    (h h' : Store.heap) : Prop :=
  (∀ l, l ≠ self → Store.objects h' !! l = Store.objects h !! l)
  ∧ Store.arrays h ⊆ Store.arrays h'
  ∧ (Store.objects h !! self = None → h' = h)
  ∧ (∀ o, Store.objects h !! self = Some o →
       delete (board o) (Store.boards h) ⊆ Store.boards h'
       ∧ ∃ o', Store.objects h' !! self = Some o'
           ∧ (board o' = board o ∨ Store.boards h !! board o' = None)
           ∧ (is_Some (Store.boards h !! board o) →
              is_Some (Store.boards h' !! board o'))
           ∧ (is_Some (Store.arrays h !! history o) →
              is_Some (Store.arrays h' !! history o'))
           ∧ (is_Some (Store.arrays h !! state o) →
              is_Some (Store.arrays h' !! state o'))).

(** The references of an object lead to a board and to arrays. *)
Definition valid_object `{E : pachi_py.Engine} (h : Store.heap)
    (o : GoGameOf Store.loc Store.loc) : Prop :=
  is_Some (Store.boards h !! board o)
  ∧ is_Some (Store.arrays h !! history o)
  ∧ is_Some (Store.arrays h !! state o).

(** Two objects that hold different boards. *)
Definition separated `{E : pachi_py.Engine} (h : Store.heap)
    (l1 l2 : Store.loc) : Prop :=
  l1 ≠ l2
  ∧ ∃ o1 o2, Store.objects h !! l1 = Some o1
      ∧ Store.objects h !! l2 = Some o2
      ∧ board o1 ≠ board o2
      ∧ valid_object h o1 ∧ valid_object h o2.

(** A call of the store, made on a game held by value. *)
Definition apply_call `{E : pachi_py.Engine} (c : Store.call) (g : GoGame)
    : GoGame :=
  match c with
  | Store.Play action => (play_action action g).2
  | Store.Reset => (reset g).2
  end.

Definition apply_calls `{E : pachi_py.Engine} (calls : list Store.call)
    (g : GoGame) : GoGame :=
  foldl (λ g c, apply_call c g) g calls.

(** A call on the store and the same call on the game held by value end
    alike: both return, the same flag and a reference to the tensor the
    other returns, or both raise the same exception. *)
Definition same_outcome `{E : pachi_py.Engine} (h' : Store.heap)
    (r : result (Store.loc * bool)) (r' : result (ndarray * bool)) : Prop :=
  match r, r' with
  | Ok (l, d), Ok (t, d') => d = d' ∧ Store.arrays h' !! l = Some t
  | Raise e, Raise e' => e = e'
  | _, _ => False
  end.

(** A coordinate that names a move on [board]: one of the two sentinels,
    or the engine's coordinate of a point of the board. *)
Definition move_coord `{E : pachi_py.Engine} (board : pachi_py.Board)
    (c : Z) : Prop :=
  c = pachi_py.PASS_COORD ∨ c = pachi_py.RESIGN_COORD
  ∨ ∃ i j, 0 ≤ i < pachi_py.size board ∧ 0 ≤ j < pachi_py.size board
           ∧ pachi_py.ij_to_coord board i j = Ok c.

(** Every call of [play_action] in turn makes a move: the game is not
    over before the call, and the call returns. *)
Fixpoint all_moves `{E : pachi_py.Engine} (actions : list Z) (self : GoGame)
    : bool :=
  match actions with
  | [] => true
  | a :: l =>
      negb (done self)
      && match (play_action a self).1 with Ok _ => true | Raise _ => false end
      && all_moves l (play_action a self).2
  end.

(** ** A small engine

    A stand-in for [pachi_py] on which the definitions can be run: the
    coordinates are those of a board with a margin of one point on each
    side, a stone may be put on any free point of the board (there are no
    captures), two passes in a row end the game, resigning is not
    supported, and the score is the number of white stones minus the
    number of black stones. *)
Module Stub.

Record board := {
  side : Z;
  stones : list (Z * Z);       (* coordinate and colour, newest first *)
  passes : nat;                (* passes since the last stone *)
}.

Definition PASS_COORD : Z := -1.
Definition RESIGN_COORD : Z := -2.

Definition CreateBoard (n : Z) : result board :=
  if 1 <=? n then Ok {| side := n; stones := []; passes := 0 |}
  else Raise (Pachi PachiError).

Definition ij_to_coord (b : board) (i j : Z) : result Z :=
  Ok ((i + 1) * (side b + 2) + (j + 1)).

Definition coord_to_ij (b : board) (c : Z) : result (Z * Z) :=
  Ok (c / (side b + 2) - 1, c mod (side b + 2) - 1).

Definition on_board (b : board) (c : Z) : bool :=
  let i := c / (side b + 2) - 1 in
  let j := c mod (side b + 2) - 1 in
  (0 <=? i) && (i <? side b) && (0 <=? j) && (j <? side b).

Definition colour_at (b : board) (c : Z) : Z :=
  match list_find (λ s, s.1 = c) (stones b) with
  | Some (_, (_, col)) => col
  | None => 0
  end.

Definition play (b : board) (c col : Z) : result board :=
  if c =? PASS_COORD then
    Ok {| side := side b; stones := stones b; passes := S (passes b) |}
  else if on_board b c && (colour_at b c =? 0) then
    Ok {| side := side b; stones := (c, col) :: stones b; passes := 0 |}
  else Raise (Pachi IllegalMove).

Definition points (b : board) : list (list Z) :=
  (λ i, (λ j, (i + 1) * (side b + 2) + (j + 1)) <$> seqZ 0 (side b))
    <$> seqZ 0 (side b).

Definition occupancy (b : board) (col : Z) : plane :=
  (λ row : list Z, (λ c, if colour_at b c =? col then 1 else 0) <$> row)
    <$> points b.

Definition encode (b : board) : list plane :=
  [occupancy b 1; occupancy b 2; occupancy b 0].

Definition is_terminal (b : board) : bool := bool_decide (2 ≤ passes b)%nat.

Definition count (b : board) (col : Z) : Z :=
  Z.of_nat (length (filter (λ s, s.2 = col) (stones b))).

Definition official_score (b : board) : Q :=
  inject_Z (count b 2 - count b 1).

Definition get_legal_coords (b : board) (col : Z) (filter_suicides : bool)
    : list Z :=
  filter (λ c, colour_at b c = 0) (concat (points b)) ++ [PASS_COORD].

Definition stone_other (col : Z) : Z :=
  if col =? 1 then 2 else if col =? 2 then 1 else col.

#[export] Instance engine : pachi_py.Engine := {|
  pachi_py.Board := board;
  pachi_py.null := {| side := 0; stones := []; passes := 0 |};
  pachi_py.PASS_COORD := PASS_COORD;
  pachi_py.RESIGN_COORD := RESIGN_COORD;
  pachi_py.CreateBoard := CreateBoard;
  pachi_py.size := side;
  pachi_py.coord_to_ij := coord_to_ij;
  pachi_py.ij_to_coord := ij_to_coord;
  pachi_py.play := play;
  pachi_py.clone := id;
  pachi_py.encode := encode;
  pachi_py.is_terminal := is_terminal;
  pachi_py.official_score := official_score;
  pachi_py.get_legal_coords := get_legal_coords;
  pachi_py.stone_other := stone_other;
|}.

End Stub.

(** ** Concrete games on the small engine *)

(** The empty 9 x 9 board that [GoGame("black", 9)] starts from. *)
Definition opening : GoGame :=
  (reset {| board_size := 9; player_color := pachi_py.BLACK; komi := 0;
            board := Stub.engine.(pachi_py.null); done := false;
            history := []; state := [] |}).2.

(** A store with the 9 x 9 game for black of the small engine (object 1)
    and its deep copy (object 2). *)
Definition two_games : Store.heap :=
  (Store.__deepcopy__ 1%positive
     (@Store.__init__ Stub.engine "black" 9 Store.empty_heap).2).2.

(** A store with the 9 x 9 game for black of the small engine alone
    (object 1). *)
Definition one_game : Store.heap :=
  (@Store.__init__ Stub.engine "black" 9 Store.empty_heap).2.

(** * Properties *)

(** ** Scores and rewards *)

Lemma Qltb_lt (x y : Q) : Qltb x y = true ↔ (x < y)%Q.
Proof.
  unfold Qltb. rewrite Qlt_alt. destruct (x ?= y)%Q; split; congruence.
Qed.

Lemma Qgtb_gt (x y : Q) : Qgtb x y = true ↔ (y < x)%Q.
Proof. apply Qltb_lt. Qed.

Lemma Qeqb_eq (x y : Q) : Qeqb x y = true ↔ (x == y)%Q.
Proof.
  unfold Qeqb. rewrite Qeq_alt. destruct (x ?= y)%Q; split; congruence.
Qed.

Lemma Qltb_false (x y : Q) : Qltb x y = false ↔ (y <= x)%Q.
Proof.
  rewrite <- not_true_iff_false, Qltb_lt. split.
  - apply Qnot_lt_le.
  - apply Qle_not_lt.
Qed.

Section Score.
Context `{E : pachi_py.Engine}.

(** The three cases of the two sign tests. *)
Lemma sign_tests (self : GoGame) :
  (Qgtb (score self) 0 = true ∧ Qltb (score self) 0 = false
     ∧ Qeqb (score self) 0 = false ∧ (0 < score self)%Q)
  ∨ (Qgtb (score self) 0 = false ∧ Qltb (score self) 0 = true
     ∧ Qeqb (score self) 0 = false ∧ (score self < 0)%Q)
  ∨ (Qgtb (score self) 0 = false ∧ Qltb (score self) 0 = false
     ∧ Qeqb (score self) 0 = true ∧ (score self == 0)%Q).
Proof.
  unfold Qgtb, Qltb, Qeqb. rewrite <- (Qcompare_antisym (score self) 0).
  destruct (score self ?= 0)%Q eqn:Hc; simpl.
  - right; right. by rewrite Qeq_alt.
  - right; left. by rewrite Qlt_alt.
  - left. by rewrite Qgt_alt.
Qed.

Lemma get_reward_positive (self : GoGame) :
  (0 < score self)%Q →
  get_reward self = if player_color self =? pachi_py.WHITE then 1 else -1.
Proof.
  intros Hs. unfold get_reward. fold (score self).
  destruct (sign_tests self) as [(-> & -> & _)|[(_ & _ & _ & H)|(_ & _ & _ & H)]].
  - simpl. rewrite orb_false_r. by destruct (_ =? _).
  - exfalso. eapply Qlt_irrefl, Qlt_trans; eauto.
  - rewrite H in Hs. by apply Qlt_irrefl in Hs.
Qed.

Lemma get_reward_negative (self : GoGame) :
  (score self < 0)%Q →
  get_reward self = if player_color self =? pachi_py.BLACK then 1 else -1.
Proof.
  intros Hs. unfold get_reward. fold (score self).
  destruct (sign_tests self) as [(_ & _ & _ & H)|[(-> & -> & _)|(_ & _ & _ & H)]].
  - exfalso. eapply Qlt_irrefl, Qlt_trans; eauto.
  - simpl. by destruct (_ =? _).
  - rewrite H in Hs. by apply Qlt_irrefl in Hs.
Qed.

Lemma get_reward_zero (self : GoGame) :
  (score self == 0)%Q → get_reward self = 0.
Proof.
  intros Hs. unfold get_reward. fold (score self).
  destruct (sign_tests self) as [(_ & _ & _ & H)|[(_ & _ & _ & H)|(-> & -> & _)]].
  - rewrite Hs in H. by apply Qlt_irrefl in H.
  - rewrite Hs in H. by apply Qlt_irrefl in H.
  - done.
Qed.

End Score.

Section Reward.
Context `{E : pachi_py.Engine}.

(** C10: [get_reward] returns -1, 0 or 1, and it returns 0 exactly when
    [komi + official_score] is zero; on a nonzero score the result is 1 or
    -1, so the tie branch is not reached in a decided game. *)
Theorem get_reward_range (self : GoGame) :
  (get_reward self = -1 ∨ get_reward self = 0 ∨ get_reward self = 1)
  ∧ (get_reward self = 0 ↔ (score self == 0)%Q)
  ∧ (¬ (score self == 0)%Q → get_reward self = 1 ∨ get_reward self = -1).
Proof.
  destruct (sign_tests self) as [(_ & _ & _ & H)|[(_ & _ & _ & H)|(_ & _ & _ & H)]].
  - assert (Hn : ¬ (score self == 0)%Q)
      by (intros Hz; rewrite Hz in H; by apply Qlt_irrefl in H).
    rewrite (get_reward_positive self H).
    destruct (_ =? _); repeat split; try tauto; try lia; intros; lia.
  - assert (Hn : ¬ (score self == 0)%Q)
      by (intros Hz; rewrite Hz in H; by apply Qlt_irrefl in H).
    rewrite (get_reward_negative self H).
    destruct (_ =? _); repeat split; try tauto; try lia; intros; lia.
  - rewrite (get_reward_zero self H). repeat split; auto; tauto.
Qed.

End Reward.

(** C1 as stated fails: the game built for black in which black takes a
    corner and both players pass ends with white to move and white ahead
    by 4.5; black is behind, and the reward is 1. *)
Lemma reward_ignores_configured :
  ¬ @reward_follows_configured Stub.engine "black" 9 [0; 81; 81].
Proof.
  intros H.
  destruct (@__init__ Stub.engine "black" 9) as [g0|e] eqn:Hg0;
    [|by vm_compute in Hg0].
  specialize (H g0 Hg0).
  vm_compute in Hg0. injection Hg0 as <-.
  destruct H as [_ H]; [by vm_compute|].
  lapply H; [intros Hlose; by vm_compute in Hlose|].
  left. split; [done|by vm_compute].
Qed.

Lemma try_except_reraise {S A} (m : method S A) (catches : exception → bool)
    (s : S) :
  try_except m catches (λ e, lift (Raise e)) s = m s.
Proof.
  unfold try_except, lift. destruct (m s) as [[x|e] s']; [done|].
  by destruct (catches e).
Qed.

Section Step.
Context `{E : pachi_py.Engine}.

(** [_act], one outcome at a time. *)
Lemma _act_unfold (a : Z) (self : GoGame) :
  _act a self =
  match _action_to_coord (board self) a with
  | Raise e => (Raise e, self)
  | Ok c =>
    match pachi_py.play (board self) c (player_color self) with
    | Raise e => (Raise e, self)
    | Ok b' =>
      let s1 := set_history (np_roll (history self)) (set_board b' self) in
      match getitem (pachi_py.encode b') (player_color self - 1) with
      | Raise e => (Raise e, s1)
      | Ok p =>
        match setitem0 (np_roll (history self)) p with
        | Raise e => (Raise e, s1)
        | Ok h' =>
          (Ok tt,
           set_player_color (pachi_py.stone_other (player_color self))
             (set_history h' s1))
        end
      end
    end
  end.
Proof.
  unfold _act, mbind, method_bind, gets, modify, lift. simpl.
  destruct (_action_to_coord _ _); [|done].
  destruct (pachi_py.play _ _ _); [|done]. simpl.
  destruct (getitem _ _); [|done].
  destruct (setitem0 _ _); done.
Qed.

(** [play_action], one outcome at a time: the move (when the game is not
    over), then the [done] flag, then the tensor. *)
Lemma play_action_unfold (a : Z) (self : GoGame) :
  play_action a self =
  match (if done self then (Ok tt, self) else _act a self) with
  | (Raise e, s1) => (Raise e, s1)
  | (Ok _, s1) =>
    let d := pachi_py.is_terminal (board s1) in
    match _format_state (history s1) (player_color s1) (board_size s1) with
    | Raise e => (Raise e, set_done d s1)
    | Ok s => (Ok (s, d), set_state s (set_done d s1))
    end
  end.
Proof.
  unfold play_action. unfold mbind at 1. unfold method_bind at 1.
  unfold gets at 1. unfold mbind at 1. unfold method_bind at 1.
  destruct (done self); simpl.
  - unfold mret, method_ret, mbind, method_bind, gets, modify, lift. simpl.
    by destruct (_format_state _ _ _).
  - rewrite try_except_reraise.
    destruct (_act a self) as [[[]|e] s1]; [|done].
    unfold mret, method_ret, mbind, method_bind, gets, modify, lift. simpl.
    by destruct (_format_state _ _ _).
Qed.

Lemma _act_fails (self : GoGame) (a : Z) (e : exception) :
  move_fails self a e → _act a self = (Raise e, self).
Proof.
  rewrite _act_unfold. intros [->|(c & -> & ->)]; done.
Qed.

Lemma play_action_fails (self : GoGame) (a : Z) (e : exception) :
  done self = false → move_fails self a e →
  play_action a self = (Raise e, self).
Proof.
  intros Hd Hf. rewrite play_action_unfold, Hd, (_act_fails _ _ _ Hf). done.
Qed.

(** What a call of [play_action] that returns says about the state it
    leaves. *)
Lemma play_action_returns (a : Z) (self self' : GoGame) (s : ndarray)
    (d : bool) :
  play_action a self = (Ok (s, d), self') →
  done self' = d ∧ state self' = s
  ∧ pachi_py.is_terminal (board self') = d
  ∧ _format_state (history self') (player_color self') (board_size self')
    = Ok s.
Proof.
  rewrite play_action_unfold.
  destruct (if done self then _ else _) as [[[]|e] s1]; [|done]. simpl.
  destruct (_format_state _ _ _) as [t|e] eqn:Hf; [|done].
  intros [= <- <- <-]. done.
Qed.

End Step.

Section RewardClaims.
Context `{E : pachi_py.Engine}.

(** A call of [play_action] that makes a move hands the turn to the other
    colour. *)
Lemma play_action_switches (self self' : GoGame) (a : Z) (s : ndarray)
    (d : bool) :
  done self = false → play_action a self = (Ok (s, d), self') →
  player_color self' = pachi_py.stone_other (player_color self).
Proof.
  intros Hd. rewrite play_action_unfold, Hd, _act_unfold.
  destruct (_action_to_coord _ _); [|done].
  destruct (pachi_py.play _ _ _); [|done]. simpl.
  destruct (getitem _ _); [|done].
  destruct (setitem0 _ _); [|done]. simpl.
  destruct (_format_state _ _ _); [|done].
  by intros [= <- <- <-].
Qed.

(** C1, as the code has it: the sign law holds for the colour held by
    [player_color] when [get_reward] is called.  A positive score rewards
    [WHITE] with 1 and [BLACK] with -1, a negative score the other way
    round.  [player_color] is the colour to move: every call of
    [play_action] that makes a move replaces it by the other colour. *)
Theorem reward_sign_law (self : GoGame) :
  (player_color self = pachi_py.BLACK → (score self < 0)%Q →
     get_reward self = 1)
  ∧ (player_color self = pachi_py.WHITE → (0 < score self)%Q →
     get_reward self = 1)
  ∧ (player_color self = pachi_py.BLACK → (0 < score self)%Q →
     get_reward self = -1)
  ∧ (player_color self = pachi_py.WHITE → (score self < 0)%Q →
     get_reward self = -1)
  ∧ (∀ a s d self',
       done self = false → play_action a self = (Ok (s, d), self') →
       player_color self' = pachi_py.stone_other (player_color self)).
Proof.
  repeat split.
  - intros Hc Hs. rewrite (get_reward_negative self Hs), Hc. done.
  - intros Hc Hs. rewrite (get_reward_positive self Hs), Hc. done.
  - intros Hc Hs. rewrite (get_reward_positive self Hs), Hc. done.
  - intros Hc Hs. rewrite (get_reward_negative self Hs), Hc. done.
  - intros a s d self'. apply play_action_switches.
Qed.

End RewardClaims.

Section StepClaims.
Context `{E : pachi_py.Engine}.

(** C4: in a game that is not over, an action whose coordinate the engine
    refuses to play makes [play_action] raise the engine's [IllegalMove],
    and the object is left exactly as it was: board, history, colour to
    move, [done] flag and state tensor. *)
Theorem illegal_move_leaves_state (self : GoGame) (a c : Z) :
  done self = false →
  _action_to_coord (board self) a = Ok c →
  pachi_py.play (board self) c (player_color self)
    = Raise (Pachi IllegalMove) →
  play_action a self = (Raise (Pachi IllegalMove), self).
Proof.
  intros Hd Hc Hp. apply play_action_fails; [done|]. right. eauto.
Qed.

(** C3, as the code has it: for an action above [size ^ 2 + 1] the codec
    checks nothing and raises nothing of its own; it hands row
    [a // size], which is not a row of the board, and column [a % size] to
    the engine's [ij_to_coord] and returns what that returns.  When the
    engine raises, there or on the move, [play_action] ends with the
    engine's exception in an unchanged state. *)
Theorem out_of_range_action (self : GoGame) (a : Z) :
  1 ≤ pachi_py.size (board self) →
  pachi_py.size (board self) ^ 2 + 1 < a →
  _action_to_coord (board self) a
    = pachi_py.ij_to_coord (board self) (a / pachi_py.size (board self))
        (a mod pachi_py.size (board self))
  ∧ pachi_py.size (board self) ≤ a / pachi_py.size (board self)
  ∧ (∀ e, done self = false → move_fails self a e →
       play_action a self = (Raise e, self)).
Proof.
  intros Hn Ha. set (n := pachi_py.size (board self)) in *.
  split; [|split].
  - unfold _action_to_coord, _pass_action, _resign_action, floordiv, pymod.
    fold n.
    destruct (Z.eqb_spec a (n ^ 2)); [lia|].
    destruct (Z.eqb_spec a (n ^ 2 + 1)); [lia|].
    destruct (Z.eqb_spec n 0); [lia|]. done.
  - apply Z.div_le_lower_bound; nia.
  - intros e Hd Hf. by apply play_action_fails.
Qed.

(** C5: once a call of [play_action] has returned [done = true], every
    further call, whatever the action, returns the same tensor and
    [done = true] and changes nothing in the object. *)
Theorem terminal_is_absorbing (self self' : GoGame) (a : Z) (s : ndarray) :
  play_action a self = (Ok (s, true), self') →
  (∀ a', play_action a' self' = (Ok (s, true), self'))
  ∧ (∀ actions, play_actions actions self' = self').
Proof.
  intros (Hd & Hs & Ht & Hf)%play_action_returns.
  assert (Hstep : ∀ a', play_action a' self' = (Ok (s, true), self')).
  { intros a'. rewrite play_action_unfold, Hd, Hf, Ht. simpl.
    destruct self'; simpl in *. by subst. }
  split; [done|].
  intros actions. induction actions as [|a' l IH]; [done|].
  unfold play_actions in *. simpl. by rewrite Hstep.
Qed.

End StepClaims.

(** On the small engine: after a corner stone and two passes white is to
    move and ahead by 4.5. *)
Lemma reward_sign_law_witness :
  get_reward (play_actions [0; 81; 81] opening) = 1.
Proof.
  apply (proj1 (proj2 (reward_sign_law (play_actions [0; 81; 81] opening))));
    by vm_compute.
Defined.

(** On the small engine: black has taken the corner, and white asks for
    the same point. *)
Lemma illegal_move_leaves_state_witness :
  play_action 0 (play_actions [0] opening)
  = (Raise (Pachi IllegalMove), play_actions [0] opening).
Proof.
  apply (illegal_move_leaves_state (play_actions [0] opening) 0 12);
    by vm_compute.
Defined.

(** On the small engine, action 83 on the empty 9 x 9 board: the engine is
    asked for the coordinate of row 9, column 2, and refuses to play it. *)
Lemma out_of_range_action_witness :
  play_action 83 opening = (Raise (Pachi IllegalMove), opening).
Proof.
  apply (out_of_range_action opening 83); [by vm_compute..|].
  right. exists 113. by vm_compute.
Defined.

(** C3 as stated fails: on the empty 9 x 9 board the codec turns action 83
    into a coordinate; the exception that follows is the engine's. *)
Lemma codec_accepts_out_of_range : ¬ codec_rejects opening 83.
Proof.
  intros (e & _ & Hc & _). by vm_compute in Hc.
Qed.

(** On the small engine: after a corner stone and two passes the game is
    over, and a further move changes nothing. *)
Lemma terminal_is_absorbing_witness :
  play_action 40 (play_actions [0; 81; 81] opening)
  = (Ok (state (play_actions [0; 81; 81] opening), true),
     play_actions [0; 81; 81] opening).
Proof.
  apply (terminal_is_absorbing (play_actions [0; 81] opening) _ 81).
  by vm_compute.
Defined.

(** ** The action codec *)

Section CodecClaims.
Context `{E : pachi_py.Engine} {L : CodecLaws}.

(** C2: on a board of side at least 1, every action from 0 to
    [size ^ 2 + 1] is turned into a coordinate by [_action_to_coord], and
    [_coord_to_action] turns that coordinate back into the action.  The
    pass action [size ^ 2] goes through [PASS_COORD], the resign action
    [size ^ 2 + 1] through [RESIGN_COORD], and a point through the
    engine's coordinate of row [a // size], column [a % size], from which
    [row * size + col] gives the action back. *)
Theorem codec_round_trip (board : pachi_py.Board) (a : Z) :
  1 ≤ pachi_py.size board →
  0 ≤ a ≤ pachi_py.size board ^ 2 + 1 →
  ∃ c, _action_to_coord board a = Ok c
       ∧ _coord_to_action board c = Ok a
       ∧ (a = pachi_py.size board ^ 2 → c = pachi_py.PASS_COORD)
       ∧ (a = pachi_py.size board ^ 2 + 1 → c = pachi_py.RESIGN_COORD)
       ∧ (a < pachi_py.size board ^ 2 →
            pachi_py.ij_to_coord board (a / pachi_py.size board)
              (a mod pachi_py.size board) = Ok c
            ∧ pachi_py.coord_to_ij board c
              = Ok (a / pachi_py.size board, a mod pachi_py.size board)
            ∧ a / pachi_py.size board * pachi_py.size board
              + a mod pachi_py.size board = a).
Proof.
  intros Hn Ha. set (n := pachi_py.size board) in *.
  unfold _action_to_coord, _coord_to_action, _pass_action, _resign_action.
  fold n. pose proof pass_not_resign as Hpr.
  destruct (Z.eqb_spec a (n ^ 2)) as [->|Hp].
  { exists pachi_py.PASS_COORD. rewrite Z.eqb_refl.
    repeat split; try done; lia. }
  destruct (Z.eqb_spec a (n ^ 2 + 1)) as [->|Hr].
  { exists pachi_py.RESIGN_COORD.
    destruct (Z.eqb_spec pachi_py.RESIGN_COORD pachi_py.PASS_COORD);
      [congruence|].
    rewrite Z.eqb_refl. repeat split; try done; lia. }
  assert (Hlt : a < n * n) by lia.
  assert (Hi : 0 ≤ a / n < n).
  { split; [apply Z.div_pos; lia|apply Z.div_lt_upper_bound; lia]. }
  assert (Hj : 0 ≤ a mod n < n) by (apply Z.mod_pos_bound; lia).
  destruct (coord_of_point board (a / n) (a mod n) Hi Hj)
    as (c & Hc & Hcp & Hcr & Hij).
  exists c. unfold floordiv, pymod.
  destruct (Z.eqb_spec n 0); [lia|]. simpl.
  destruct (Z.eqb_spec c pachi_py.PASS_COORD); [done|].
  destruct (Z.eqb_spec c pachi_py.RESIGN_COORD); [done|].
  assert (Hdm : a / n * n + a mod n = a).
  { rewrite (Z.mul_comm (a / n) n). symmetry. apply Z.div_mod. lia. }
  rewrite Hij. simpl. rewrite Hdm. repeat split; try done; lia.
Qed.

End CodecClaims.

(** ** The state tensor *)

Lemma shape_const_plane (n v : Z) : square n (const_plane n v).
Proof.
  unfold square, shape, const_plane.
  by rewrite fmap_replicate, length_replicate.
Qed.

Lemma np_full_one (n v : Z) :
  0 ≤ n → np_full n 1 v = Ok [const_plane n v].
Proof.
  intros Hn. unfold np_full.
  destruct (Z.ltb_spec n 0); [lia|]. done.
Qed.

(** Slices of the same side may be concatenated. *)
Lemma np_concatenate_square (n : Z) (a b : ndarray) :
  Forall (square n) a → Forall (square n) b →
  np_concatenate a b = Ok (a ++ b).
Proof.
  intros Ha Hb. unfold np_concatenate.
  assert (Hab : Forall (square n) (a ++ b)) by by apply Forall_app.
  destruct (a ++ b) as [|p ps]; [done|].
  apply Forall_cons in Hab as [Hp Hps].
  assert (Hall : forallb (λ q, bool_decide (shape q = shape p)) ps = true).
  { apply Is_true_true, forallb_True.
    eapply Forall_impl; [exact Hps|].
    intros q Hq. apply bool_decide_pack. unfold square in *. congruence. }
  by rewrite Hall.
Qed.

(** On slices of the side of the board [_format_state] returns: the
    history, then the slice of the colour to move. *)
Lemma _format_state_square (history : ndarray) (player_color board_size : Z) :
  0 ≤ board_size → Forall (square board_size) history →
  _format_state history player_color board_size
  = Ok (history ++ [const_plane board_size (player_color - 1)]).
Proof.
  intros Hn Hsq. unfold _format_state. rewrite np_full_one by done.
  apply (np_concatenate_square board_size); [done|].
  apply Forall_singleton, shape_const_plane.
Qed.

(** C7: for a history of [2 * HISTORY] slices of the side of the board and
    any colour to move, [_format_state] returns the history followed by
    one more slice of the same side, every cell of which is
    [player_color - 1] (0 for black, 1 for white); the tensor has
    [2 * HISTORY + 1] slices.  Nothing is changed: in a store that holds
    the history the tensor is a new array, and the store is otherwise what
    it was. *)
Theorem format_state_tensor `{E : pachi_py.Engine} (history : ndarray)
    (player_color board_size : Z) :
  0 ≤ board_size →
  length history = Z.to_nat (2 * HISTORY) →
  Forall (square board_size) history →
  ∃ color_to_play,
    _format_state history player_color board_size
      = Ok (history ++ [color_to_play])
    ∧ length (history ++ [color_to_play]) = Z.to_nat (2 * HISTORY + 1)
    ∧ square board_size color_to_play
    ∧ (∀ row cell, row ∈ color_to_play → cell ∈ row →
         cell = player_color - 1)
    ∧ (player_color = pachi_py.BLACK → player_color - 1 = 0)
    ∧ (player_color = pachi_py.WHITE → player_color - 1 = 1)
    ∧ (∀ (h : Store.heap) (lh : Store.loc),
         Store.arrays h !! lh = Some history →
         ∃ l, Store.arrays h !! l = None
              ∧ Store._format_state lh player_color board_size h
                = (Ok l,
                   Store.set_arrays
                     (<[l:=history ++ [color_to_play]]> (Store.arrays h)) h)).
Proof.
  intros Hn Hlen Hsq. exists (const_plane board_size (player_color - 1)).
  pose proof (_format_state_square history player_color board_size Hn Hsq)
    as Hfmt.
  repeat split.
  - exact Hfmt.
  - rewrite length_app, Hlen. simpl. unfold HISTORY. lia.
  - apply shape_const_plane.
  - intros row cell Hrow Hcell. unfold const_plane in Hrow.
    apply elem_of_replicate_inv in Hrow. subst row.
    by apply elem_of_replicate_inv in Hcell.
  - intros ->. done.
  - intros ->. done.
  - intros h lh Hlh. exists (fresh (dom (Store.arrays h))). split.
    + apply not_elem_of_dom, is_fresh.
    + unfold _format_state in Hfmt. rewrite np_full_one in Hfmt by done.
      simpl in Hfmt.
      unfold Store._format_state, Store.the_array, Store.new_array,
        mbind, method_bind, lift.
      rewrite Hlh, np_full_one by done. by rewrite Hfmt.
Qed.

(** A zero history and black to move on a board of side 2. *)
Lemma format_state_tensor_witness :
  ∃ color_to_play,
    _format_state (replicate 16 [[0; 0]; [0; 0]]) 1 2
      = Ok (replicate 16 [[0; 0]; [0; 0]] ++ [color_to_play])
    ∧ color_to_play = [[0; 0]; [0; 0]].
Proof.
  destruct (format_state_tensor (E := Stub.engine)
              (replicate 16 [[0; 0]; [0; 0]]) 1 2)
    as (p & Hp & _ & _ & _); [lia|done|by repeat constructor|].
  exists p. split; [exact Hp|].
  vm_compute in Hp. congruence.
Defined.

(** ** The result string *)

Section ResultString.
Context `{E : pachi_py.Engine}.
Variable str : Q → string.

(** C8: with [score = komi + official_score], the result string is ["W+"]
    followed by [str(abs(score))] when the score is positive, ["B+"]
    followed by [str(abs(score))] when it is negative, and ["B+W"] when
    it is zero: the sign test names black the winner, and the label that
    follows is the opposite one. *)
Theorem get_result_string_cases (self : GoGame) :
  ((0 < score self)%Q →
     get_result_string str self = "W+" +:+ str (Qabs (score self)))
  ∧ ((score self < 0)%Q →
     get_result_string str self = "B+" +:+ str (Qabs (score self)))
  ∧ ((score self == 0)%Q → get_result_string str self = "B+W").
Proof.
  unfold get_result_string. fold (score self).
  destruct (sign_tests self)
    as [(-> & _ & -> & H)|[(-> & _ & -> & H)|(-> & _ & -> & H)]];
    repeat split; intros Hs; try done.
  - exfalso. eapply Qlt_irrefl, Qlt_trans; eauto.
  - rewrite Hs in H. by apply Qlt_irrefl in H.
  - exfalso. eapply Qlt_irrefl, Qlt_trans; eauto.
  - rewrite Hs in H. by apply Qlt_irrefl in H.
  - rewrite H in Hs. by apply Qlt_irrefl in Hs.
  - rewrite H in Hs. by apply Qlt_irrefl in Hs.
Qed.

End ResultString.

(** ** The small engine obeys the laws *)

Lemma div_mod_row (n i j : Z) :
  0 ≤ j < n → (i * n + j) / n = i ∧ (i * n + j) mod n = j.
Proof.
  intros Hj. split.
  - rewrite Z.div_add_l, Z.div_small by lia. lia.
  - rewrite (Z.add_comm (i * n) j), Z.mod_add, Z.mod_small by lia. done.
Qed.

#[export] Instance stub_codec_laws : @CodecLaws Stub.engine.
Proof.
  split; [done|].
  intros b i j Hi Hj. simpl in *.
  exists ((i + 1) * (Stub.side b + 2) + (j + 1)).
  unfold Stub.ij_to_coord, Stub.coord_to_ij, Stub.PASS_COORD,
    Stub.RESIGN_COORD.
  repeat split; [nia|nia|].
  destruct (div_mod_row (Stub.side b + 2) (i + 1) (j + 1)) as [-> ->];
    [lia|].
  do 2 f_equal; lia.
Qed.

Lemma stub_occupancy_square (b : Stub.board) (col : Z) :
  square (Stub.side b) (Stub.occupancy b col).
Proof.
  unfold square, shape, Stub.occupancy, Stub.points.
  rewrite <- !list_fmap_compose.
  erewrite const_fmap; [by rewrite length_seqZ|].
  intros i x _. simpl. by rewrite !length_fmap, length_seqZ.
Qed.

#[export] Instance stub_board_laws : @BoardLaws Stub.engine.
Proof.
  split; simpl.
  - intros n b. unfold Stub.CreateBoard.
    destruct (1 <=? n); [|done]. by intros [= <-].
  - intros b c col b'. unfold Stub.play.
    destruct (c =? Stub.PASS_COORD); [by intros [= <-]|].
    destruct (_ && _); [|done]. by intros [= <-].
  - intros b. split; [done|].
    repeat constructor; apply stub_occupancy_square.
  - done.
  - done.
Qed.

(** On the small engine: the centre point of the empty 9 x 9 board. *)
Lemma codec_round_trip_witness :
  _action_to_coord (board opening) 40 ≫= _coord_to_action (board opening)
  = Ok 40.
Proof.
  destruct (codec_round_trip (board opening) 40) as (c & Hc & Ha & _);
    [by vm_compute..|].
  rewrite Hc. exact Ha.
Defined.

(** ** The history buffer *)

Lemma np_roll_cons (a : ndarray) :
  a ≠ [] →
  ∃ q, last a = Some q ∧ np_roll a = q :: take (length a - 1) a.
Proof.
  intros Ha. unfold np_roll.
  destruct (last a) as [q|] eqn:Hq; [eauto|].
  apply last_is_Some in Ha. rewrite Hq in Ha. by destruct Ha.
Qed.

Lemma np_roll_length (a : ndarray) : length (np_roll a) = length a.
Proof.
  destruct a as [|p a]; [done|].
  destruct (np_roll_cons (p :: a)) as (q & _ & ->); [done|].
  simpl. rewrite length_take. simpl. lia.
Qed.

Lemma np_roll_Forall (P : plane → Prop) (a : ndarray) :
  Forall P a → Forall P (np_roll a).
Proof.
  intros Ha. destruct a as [|p a]; [done|].
  destruct (np_roll_cons (p :: a)) as (q & Hq & ->); [done|].
  constructor; [|by apply Forall_take].
  apply last_Some in Hq as [l' Hl']. rewrite Hl' in Ha.
  by apply Forall_app in Ha as [_ [? _]%Forall_cons].
Qed.

Lemma getitem_colour {A} (l : list A) (k : Z) :
  length l = 3%nat → k = 0 ∨ k = 1 →
  ∃ x, getitem l k = Ok x ∧ x ∈ l.
Proof.
  intros Hl Hk. destruct l as [|x [|y [|z [|]]]]; try done.
  destruct Hk as [-> | ->].
  - exists x. split; [done|set_solver].
  - exists y. split; [done|set_solver].
Qed.

Section History.
Context `{E : pachi_py.Engine}.

(** [reset], one outcome at a time. *)
Lemma reset_unfold (self : GoGame) :
  reset self =
  let s0 := set_komi (_komi self) self in
  match pachi_py.CreateBoard (board_size self) with
  | Raise e => (Raise e, s0)
  | Ok b =>
    let s1 := set_done false (set_board b s0) in
    match np_zeros (board_size self) (HISTORY * 2) with
    | Raise e => (Raise e, s1)
    | Ok h =>
      match np_zeros (board_size self) (HISTORY * 2 + 1) with
      | Raise e => (Raise e, set_history h s1)
      | Ok s => (Ok s, set_state s (set_history h s1))
      end
    end
  end.
Proof.
  unfold reset, mbind, method_bind, gets, modify, lift. simpl.
  destruct (pachi_py.CreateBoard _); [|done]. simpl.
  destruct (np_zeros _ (HISTORY * 2)); [|done]. simpl.
  destruct (np_zeros _ (HISTORY * 2 + 1)); done.
Qed.

(** [reset] reads [board_size] only, and leaves [player_color] as it is:
    what it returns and the object it leaves do not depend on the other
    attributes. *)
Lemma reset_seed (self self0 : GoGame) (s : ndarray) (g : GoGame) :
  board_size self = board_size self0 →
  player_color self = player_color self0 →
  reset self = (Ok s, g) → reset self0 = (Ok s, g).
Proof.
  intros Hn Hc. rewrite !reset_unfold. unfold _komi. simpl. rewrite <- Hn.
  destruct (pachi_py.CreateBoard _); [|done].
  destruct (np_zeros _ (HISTORY * 2)); [|done].
  destruct (np_zeros _ (HISTORY * 2 + 1)); [|done].
  intros [= <- <-]. unfold set_state, set_history, set_done, set_board,
    set_komi. simpl. by rewrite Hn, Hc.
Qed.

Lemma np_zeros_Ok (n d : Z) (a : ndarray) :
  np_zeros n d = Ok a →
  0 ≤ n ∧ 0 ≤ d ∧ length a = Z.to_nat d ∧ Forall (square n) a.
Proof.
  unfold np_zeros, np_full.
  destruct (Z.ltb_spec n 0); [done|]. destruct (Z.ltb_spec d 0); [done|].
  intros [= <-]. rewrite length_replicate.
  repeat split; try done. apply Forall_replicate, shape_const_plane.
Qed.

Lemma np_zeros_nonneg (n d : Z) :
  0 ≤ n → 0 ≤ d → ∃ a, np_zeros n d = Ok a.
Proof.
  intros Hn Hd. unfold np_zeros, np_full.
  destruct (Z.ltb_spec n 0); [lia|]. destruct (Z.ltb_spec d 0); [lia|]. eauto.
Qed.

Context {L : BoardLaws}.

(** A [reset] that returns leaves a consistent object, whatever it
    started from. *)
Lemma reset_returns (self self' : GoGame) (s : ndarray) :
  player_color self = pachi_py.BLACK ∨ player_color self = pachi_py.WHITE →
  reset self = (Ok s, self') →
  consistent self' ∧ player_color self' = player_color self
  ∧ done self' = false.
Proof.
  intros Hc. rewrite reset_unfold. simpl.
  destruct (pachi_py.CreateBoard _) as [b|] eqn:Hb; [|done].
  destruct (np_zeros _ (HISTORY * 2)) as [h|] eqn:Hh; [|done].
  destruct (np_zeros _ (HISTORY * 2 + 1)) as [t|] eqn:Ht; [|done].
  intros [= <- <-]. simpl.
  apply np_zeros_Ok in Hh as (Hn & _ & Hlen & Hsq).
  apply size_CreateBoard in Hb.
  repeat split; done.
Qed.

Lemma reset_consistent (self self' : GoGame) (r : result ndarray) :
  consistent self → reset self = (r, self') → consistent self'.
Proof.
  intros (Hn & Hsz & Hc & Hh). rewrite reset_unfold. simpl.
  destruct (pachi_py.CreateBoard _) as [b|] eqn:Hb; [|by intros [= <- <-]].
  destruct (np_zeros_nonneg (board_size self) (HISTORY * 2)) as [h Hh'];
    [done|unfold HISTORY; lia|].
  destruct (np_zeros_nonneg (board_size self) (HISTORY * 2 + 1)) as [t Ht'];
    [done|unfold HISTORY; lia|].
  rewrite Hh', Ht'. intros [= <- <-].
  apply np_zeros_Ok in Hh' as (_ & _ & Hlen & Hsq).
  apply size_CreateBoard in Hb.
  repeat split; done.
Qed.

(** On a consistent object [_act] either stops before anything is
    assigned, or goes through: the board is the engine's, the history is
    rolled by one slice with the mover's slice written in front, and the
    colour is switched. *)
Lemma _act_consistent (a : Z) (self : GoGame) :
  consistent self →
  (∃ e, _act a self = (Raise e, self) ∧ move_fails self a e)
  ∨ (∃ c b' p,
       _action_to_coord (board self) a = Ok c
       ∧ pachi_py.play (board self) c (player_color self) = Ok b'
       ∧ getitem (pachi_py.encode b') (player_color self - 1) = Ok p
       ∧ square (board_size self) p
       ∧ _act a self =
         (Ok tt,
          set_player_color (pachi_py.stone_other (player_color self))
            (set_history
               (p :: take (Z.to_nat (2 * HISTORY) - 1) (history self))
               (set_history (np_roll (history self)) (set_board b' self))))).
Proof.
  intros (Hn & Hsz & Hc & Hlen & Hsq). rewrite _act_unfold.
  destruct (_action_to_coord _ _) as [c|e] eqn:Hco;
    [|left; exists e; split; [done|by left]].
  destruct (pachi_py.play _ _ _) as [b'|e] eqn:Hp;
    [|left; exists e; split; [done|right; eauto]].
  right. exists c, b'.
  destruct (encode_shape b') as [Hel Hes].
  destruct (getitem_colour (pachi_py.encode b') (player_color self - 1))
    as (p & Hg & Hin); [done|unfold pachi_py.BLACK, pachi_py.WHITE in Hc; lia|].
  exists p. simpl. rewrite Hg.
  assert (Hp' : square (board_size self) p).
  { rewrite <- Hsz, <- (size_play _ _ _ _ Hp).
    by eapply (proj1 (Forall_forall _ _) Hes). }
  destruct (np_roll_cons (history self)) as (q & Hq & Hroll).
  { intros Hnil. rewrite Hnil in Hlen. by vm_compute in Hlen. }
  rewrite Hroll, Hlen. simpl.
  assert (Hq' : square (board_size self) q).
  { apply last_Some in Hq as [l' Hl']. rewrite Hl' in Hsq.
    by apply Forall_app in Hsq as [_ [? _]%Forall_cons]. }
  rewrite bool_decide_true by (unfold square in *; congruence).
  repeat split; done.
Qed.

Lemma play_action_consistent (a : Z) (self self' : GoGame)
    (r : result (ndarray * bool)) :
  consistent self → play_action a self = (r, self') → consistent self'.
Proof.
  intros Hcons. rewrite play_action_unfold.
  assert (Hfmt : ∀ s1 : GoGame, consistent s1 →
    ∃ t, _format_state (history s1) (player_color s1) (board_size s1) = Ok t).
  { intros s1 (Hn & _ & _ & Hlen & Hsq).
    rewrite _format_state_square by done. eauto. }
  destruct (done self).
  - destruct (Hfmt self Hcons) as [t ->]. simpl. intros [= <- <-].
    destruct Hcons as (? & ? & ? & ? & ?). by repeat split.
  - destruct (_act_consistent a self Hcons)
      as [(e & -> & _)|(c & b' & p & _ & Hp & _ & Hsq & ->)].
    { by intros [= <- <-]. }
    destruct Hcons as (Hn & Hsz & Hc & Hlen & Hall).
    set (s1 := set_player_color _ (set_history _ _)).
    assert (Hcons1 : consistent s1).
    { repeat split; simpl; try done.
      - by rewrite (size_play _ _ _ _ Hp).
      - destruct Hc as [-> | ->];
          [right; apply stone_other_BLACK|left; apply stone_other_WHITE].
      - rewrite length_take, Hlen. vm_compute. done.
      - constructor; [done|by apply Forall_take]. }
    destruct (Hfmt _ Hcons1) as [t ->]. simpl. intros [= <- <-].
    destruct Hcons1 as (? & ? & ? & ? & ?). by repeat split.
Qed.

Lemma reachable_consistent (self : GoGame) :
  reachable self → consistent self.
Proof.
  induction 1 as [color n self Hinit|self r self' _ IH Hr|self a r self' _ IH Hp].
  - unfold __init__ in Hinit.
    destruct (colormap color) as [pc|] eqn:Hpc; [|done]. simpl in Hinit.
    destruct (reset _) as [[s|e] g] eqn:Hr; [|done].
    injection Hinit as ->.
    apply reset_returns in Hr as [? _]; [done|]. simpl.
    unfold colormap in Hpc.
    destruct (String.eqb color "black"); [left; congruence|].
    destruct (String.eqb color "white"); [right; congruence|done].
  - by eapply reset_consistent.
  - by eapply play_action_consistent.
Qed.

End History.

Section HistoryClaims.
Context `{E : pachi_py.Engine} {L : BoardLaws}.

Lemma reachable_play_actions (actions : list Z) (self : GoGame) :
  reachable self → reachable (play_actions actions self).
Proof.
  revert self. induction actions as [|a l IH]; intros self Hr; [done|].
  apply (IH (play_action a self).2).
  eapply reachable_play; [exact Hr|apply surjective_pairing].
Qed.

(** C6: after construction, after [reset] and after any sequence of
    [play_action] calls the history holds [2 * HISTORY] = 16 slices of the
    side of the board.  A call that makes a move (the game was not over
    and the call returned) leaves the mover's slice of the new board's
    encoding in front, followed by the first 15 slices of the old
    history: the last slice is dropped, the others move back by one. *)
Theorem history_depth_invariant (self : GoGame) :
  reachable self →
  history_ok self
  ∧ (∀ a s d self',
       done self = false → play_action a self = (Ok (s, d), self') →
       ∃ p, getitem (pachi_py.encode (board self')) (player_color self - 1)
              = Ok p
            ∧ history self'
              = p :: take (Z.to_nat (2 * HISTORY) - 1) (history self)
            ∧ (∀ k q, (k < Z.to_nat (2 * HISTORY) - 1)%nat →
                 history self !! k = Some q →
                 history self' !! S k = Some q)
            ∧ history_ok self').
Proof.
  intros Hcons%reachable_consistent. split; [apply Hcons|].
  intros a s d self' Hd Hplay.
  assert (Hcons' : consistent self') by by eapply play_action_consistent.
  rewrite play_action_unfold, Hd in Hplay.
  destruct (_act_consistent a self Hcons)
    as [(e & He & _)|(c & b' & p & _ & _ & Hg & _ & Hact)];
    rewrite ?He, ?Hact in Hplay; [done|].
  simpl in Hplay. destruct (_format_state _ _ _) as [t|]; [|done].
  injection Hplay as <- <- <-. simpl.
  exists p. repeat split; try done; try apply Hcons'.
  intros k q Hk Hq. by rewrite lookup_take_lt.
Qed.

End HistoryClaims.

Lemma opening_init : @__init__ Stub.engine "black" 9 = Ok opening.
Proof. by vm_compute. Qed.

(** On the small engine: a corner stone, a pass and the centre point. *)
Lemma history_depth_invariant_witness :
  history_ok (play_actions [0; 81; 40] opening).
Proof.
  apply (history_depth_invariant (play_actions [0; 81; 40] opening)).
  apply reachable_play_actions.
  exact (reachable_init "black" 9 opening opening_init).
Defined.

(** ** Copies are independent *)

(** The two ways a sequence of two steps can end. *)
Lemma bind_inv {S A B} (m : method S A) (f : A → method S B) (s s' : S)
    (r : result B) :
  (m ≫= f) s = (r, s') →
  (∃ a s1, m s = (Ok a, s1) ∧ f a s1 = (r, s'))
  ∨ (∃ e, m s = (Raise e, s') ∧ r = Raise e).
Proof.
  unfold mbind, method_bind. destruct (m s) as [[a|e] s1]; [eauto|].
  intros [= <- <-]. eauto.
Qed.

(** A new identity is in use in no smaller map. *)
Lemma lookup_fresh_sub {A} (m m' : gmap positive A) :
  m ⊆ m' → m !! fresh (dom m') = None.
Proof.
  intros Hm. destruct (m !! fresh (dom m')) as [x|] eqn:Hx; [|done].
  eapply lookup_weaken in Hx; [|exact Hm].
  by apply elem_of_dom_2, is_fresh in Hx.
Qed.

Lemma insert_delete_subseteq_inplace {A} (m : gmap positive A) i x :
  delete i m ⊆ <[i:=x]> m.
Proof.
  apply map_subseteq_spec. intros j y [Hj Hy]%lookup_delete_Some.
  by rewrite lookup_insert_ne.
Qed.

(** [m] is included in [m] with new identities added. *)
Ltac sub_chain :=
  first
    [ reflexivity
    | apply insert_subseteq_r; [eapply lookup_fresh_sub; sub_chain|sub_chain] ].

Section Frame.
Context `{E : pachi_py.Engine}.
Variable in_place : bool.

(** Symbolic execution of a method call [H : m h = (r, h')]: one case per
    place where it can raise. *)
Ltac case_in H :=
  match type of H with
  | context [match ?x with _ => _ end] => destruct x eqn:?
  end; simplify_eq.

Ltac run_in H :=
  lazymatch type of H with
  | (_ ≫= _) _ = _ =>
      let Hm := fresh "Hm" in
      let Hr := fresh "Hr" in
      apply bind_inv in H as [(? & ? & Hm & H)|(? & Hm & Hr)];
      [ run_in Hm; simpl in *; simplify_map_eq; run_in H
      | try discriminate Hr; simplify_eq; run_in Hm; simpl in *;
        simplify_map_eq ]
  | Store.getattr _ _ _ = _ => unfold Store.getattr in H; case_in H
  | Store.setattr _ _ _ = _ => unfold Store.setattr in H; case_in H
  | Store.the_board _ _ = _ => unfold Store.the_board in H; case_in H
  | Store.the_array _ _ = _ => unfold Store.the_array in H; case_in H
  | Store.new_board _ _ = _ => unfold Store.new_board in H; simplify_eq
  | Store.new_array _ _ = _ => unfold Store.new_array in H; simplify_eq
  | Store.new_object _ _ = _ => unfold Store.new_object in H; simplify_eq
  | Store.put_board _ _ _ = _ => unfold Store.put_board in H; simplify_eq
  | Store.put_array _ _ _ = _ => unfold Store.put_array in H; simplify_eq
  | Store.board_play _ _ _ _ _ = _ => unfold Store.board_play in H; run_in H
  | Store._format_state _ _ _ _ = _ =>
      unfold Store._format_state in H; run_in H
  | try_except _ _ _ _ = _ => rewrite try_except_reraise in H
  | (if ?b then _ else _) _ = _ => destruct b eqn:?; run_in H
  | lift _ _ = _ => unfold lift in H; simplify_eq
  | mret _ _ = _ => unfold mret, method_ret in H; simplify_eq
  | _ => idtac
  end.

Ltac symbolic H := run_in H; simpl in *; simplify_map_eq.

(** [frame] between a store and that store with objects added. *)
Ltac is_Some_chain :=
  intros; rewrite ?lookup_insert_is_Some'; auto 10.

Ltac frame_explicit :=
  unfold frame; repeat split; simpl;
  [ intros l Hl; by rewrite ?lookup_insert_ne by done
  | sub_chain
  | intros ?; by simplify_eq
  | simplify_eq;
    first [ etrans; [apply delete_subseteq|sub_chain]
          | apply insert_delete_subseteq_inplace ]
  | simplify_eq; eexists; split;
    [ first [apply lookup_insert_eq|eassumption]
    | simpl; repeat split;
      [ first [by left|right; by apply lookup_fresh_sub]
      | is_Some_chain .. ] ] ].

Lemma frame_refl self h : frame self h h.
Proof.
  unfold frame. repeat split; try done.
  - apply delete_subseteq.
  - eauto 10.
Qed.

Lemma reset_frame self h r h' :
  Store.reset self h = (r, h') → frame self h h'.
Proof.
  intros H. unfold Store.reset in H.
  symbolic H; first [apply frame_refl|frame_explicit].
Qed.

Lemma _act_frame self a h r h' :
  Store._act in_place self a h = (r, h') → frame self h h'.
Proof.
  intros H. unfold Store._act in H.
  symbolic H; first [apply frame_refl|frame_explicit].
Qed.

Lemma frame_trans self h h' h'' :
  frame self h h' → frame self h' h'' → frame self h h''.
Proof.
  intros (Ho & Ha & Hn & Hs) (Ho' & Ha' & Hn' & Hs').
  unfold frame. repeat split.
  - intros l Hl. by rewrite Ho', Ho.
  - by etrans.
  - intros Hnone. rewrite (Hn Hnone) in *. auto.
  - destruct (Hs o H) as (D1 & o' & Hso' & B1 & _).
    destruct (Hs' o' Hso') as (D2 & _).
    apply map_subseteq_spec. intros l b [Hl Hb]%lookup_delete_Some.
    eapply lookup_weaken; [|exact D2].
    apply lookup_delete_Some. split.
    + intros <-. destruct B1 as [B1|B1]; congruence.
    + eapply lookup_weaken; [|exact D1]. by apply lookup_delete_Some.
  - destruct (Hs o H) as (D1 & o' & Hso' & B1 & S1 & S2 & S3).
    destruct (Hs' o' Hso') as (D2 & o'' & Hso'' & B2 & T1 & T2 & T3).
    exists o''. repeat split; auto.
    destruct B2 as [B2|B2]; [rewrite B2; exact B1|].
    destruct (decide (board o'' = board o)) as [|Hne]; [by left|right].
    destruct (Store.boards h !! board o'') as [b|] eqn:Hb; [|done].
    assert (Store.boards h' !! board o'' = Some b); [|congruence].
    eapply lookup_weaken; [|exact D1]. by apply lookup_delete_Some.
Qed.

Lemma play_action_frame self a h r h' :
  Store.play_action in_place self a h = (r, h') → frame self h h'.
Proof.
  intros H. unfold Store.play_action in H.
  symbolic H;
    first
      [ apply frame_refl
      | frame_explicit
      | eapply _act_frame; eassumption
      | eapply frame_trans; [eapply _act_frame; eassumption|frame_explicit] ].
Qed.

Lemma exec_frame self c h : frame self h (Store.exec in_place self c h).
Proof.
  destruct c as [a|]; simpl.
  - destruct (Store.play_action in_place self a h) as [r h'] eqn:Hp.
    by eapply play_action_frame.
  - destruct (Store.reset self h) as [r h'] eqn:Hp.
    by eapply reset_frame.
Qed.

Lemma run_frame self calls h : frame self h (Store.run in_place self calls h).
Proof.
  revert h. induction calls as [|c calls IH]; intros h; [apply frame_refl|].
  eapply frame_trans; [apply (exec_frame self c)|apply IH].
Qed.

Lemma separated_sym h l1 l2 : separated h l1 l2 → separated h l2 l1.
Proof.
  intros (Hne & o1 & o2 & H1 & H2 & Hb & V1 & V2).
  split; [done|]. exists o2, o1. repeat split; try done; apply V1 || apply V2.
Qed.

(** A method of [self] changes nothing of an object that does not share
    its board, and leaves the two separated. *)
Lemma frame_keeps (self other : Store.loc) (h h' : Store.heap) :
  frame self h h' → separated h self other →
  separated h' self other
  ∧ Store.objects h' !! other = Store.objects h !! other
  ∧ Store.view h' other = Store.view h other.
Proof.
  intros (Ho & Ha & Hn & Hs) (Hne & o1 & o2 & H1 & H2 & Hb & V1 & V2).
  destruct (Hs o1 H1) as (D & o1' & H1' & B & S1 & S2 & S3).
  destruct V1 as (V1b & V1h & V1s). destruct V2 as ([b2 V2b] & [a2 V2h] & [s2 V2s]).
  assert (H2' : Store.objects h' !! other = Some o2) by (rewrite Ho; done).
  assert (Hb2 : Store.boards h' !! board o2 = Some b2).
  { eapply lookup_weaken; [|exact D]. by apply lookup_delete_Some. }
  assert (Ha2 : Store.arrays h' !! history o2 = Some a2)
    by (by eapply lookup_weaken).
  assert (Hs2 : Store.arrays h' !! state o2 = Some s2)
    by (by eapply lookup_weaken).
  repeat split; try done.
  - exists o1', o2. repeat split; auto.
    all: try (by rewrite ?Hb2, ?Ha2, ?Hs2).
    destruct B as [->|B]; [done|]. congruence.
  - congruence.
  - unfold Store.view. rewrite H2', H2. simpl. by rewrite Hb2, V2b, Ha2, V2h, Hs2, V2s.
Qed.

Lemma fresh_insert_ne {A} (m : gmap positive A) l x :
  fresh (dom (<[l:=x]> m)) ≠ l.
Proof.
  intros Heq. pose proof (is_fresh (dom (<[l:=x]> m))) as Hf.
  rewrite Heq in Hf. apply Hf, elem_of_dom. rewrite lookup_insert_eq. eauto.
Qed.

Lemma view_Some h self o b hv sv :
  Store.objects h !! self = Some o →
  Store.boards h !! board o = Some b →
  Store.arrays h !! history o = Some hv →
  Store.arrays h !! state o = Some sv →
  Store.view h self
  = Some {| board_size := board_size o; player_color := player_color o;
            komi := komi o; board := b; done := done o; history := hv;
            state := sv |}.
Proof. intros Ho Hb Hh Hs. unfold Store.view. by rewrite Ho; simpl; rewrite Hb; simpl; rewrite Hh; simpl; rewrite Hs. Qed.

Lemma view_Some_inv h self g :
  Store.view h self = Some g →
  ∃ o, Store.objects h !! self = Some o
    ∧ Store.boards h !! board o = Some (board g)
    ∧ Store.arrays h !! history o = Some (history g)
    ∧ Store.arrays h !! state o = Some (state g)
    ∧ board_size o = board_size g ∧ player_color o = player_color g
    ∧ komi o = komi g ∧ done o = done g.
Proof.
  unfold Store.view. intros Hg.
  destruct (Store.objects h !! self) as [o|] eqn:Ho; [|done]. simpl in Hg.
  destruct (Store.boards h !! board o) as [b|] eqn:Hb; [|done]. simpl in Hg.
  destruct (Store.arrays h !! history o) as [hv|] eqn:Hh; [|done]. simpl in Hg.
  destruct (Store.arrays h !! state o) as [sv|] eqn:Hs; [|done]. simpl in Hg.
  injection Hg as <-. exists o. done.
Qed.

Lemma fresh_ne_lookup {A} (m : gmap positive A) k v :
  m !! k = Some v → fresh (dom m) ≠ k.
Proof.
  intros Hk Heq. pose proof (is_fresh (dom m)) as Hf.
  rewrite Heq in Hf. by apply Hf, elem_of_dom.
Qed.

(** A lookup in a map with new identities added. *)
Ltac lookup_chain :=
  first
    [ eassumption
    | apply lookup_insert_eq
    | rewrite lookup_insert_ne;
      [lookup_chain|eapply fresh_ne_lookup; lookup_chain] ].

Ltac use_equations :=
  repeat match goal with
  | H : ?t = Ok _ |- context [?t] => rewrite H
  | H : ?t = Raise _ |- context [?t] => rewrite H
  end.

Ltac view_explicit :=
  erewrite view_Some; [|simpl; lookup_chain..]; simpl.

(** The methods on the store do to the view of the object what the
    methods on values do to the value. *)
Lemma _act_refines h self a g r h' :
  Store.view h self = Some g →
  Store._act in_place self a h = (r, h') →
  ∃ g', _act a g = (r, g') ∧ Store.view h' self = Some g'.
Proof.
  intros Hg H.
  destruct (view_Some_inv _ _ _ Hg)
    as (o & Ho & Hb & Hh & Hs & Hn & Hc & Hk & Hd).
  rewrite _act_unfold.
  unfold Store._act in H. symbolic H.
  all: try rewrite Hc in *.
  all: use_equations.
  all: eexists; (split; [reflexivity|]).
  all: first [exact Hg | view_explicit; destruct g; simpl in *; by subst].
Qed.

Lemma play_action_refines h self a g r h' :
  Store.view h self = Some g →
  Store.play_action in_place self a h = (r, h') →
  ∃ r' g', play_action a g = (r', g')
    ∧ Store.view h' self = Some g' ∧ same_outcome h' r r'.
Proof.
  intros Hg H.
  destruct (view_Some_inv _ _ _ Hg)
    as (o & Ho & Hb & Hh & Hs & Hn & Hc & Hk & Hd).
  rewrite play_action_unfold, <- Hd.
  unfold Store.play_action in H. symbolic H.
  all: repeat match goal with
       | Hq : negb ?b = _ |- _ => destruct b; simpl in Hq; try discriminate Hq
       end.
  all: try match goal with
       | Hact : Store._act _ _ _ _ = _ |- _ =>
           destruct (_act_refines _ _ _ _ _ _ Hg Hact) as (g1 & Hact' & Hg1);
           rewrite Hact'; clear Hg
       end.
  all: try match goal with
       | Hv : Store.view _ _ = Some ?g1 |- _ =>
           let Hn1 := fresh in let Hc1 := fresh in
           destruct (view_Some_inv _ _ _ Hv)
             as (? & ? & ? & ? & ? & Hn1 & Hc1 & ? & ?);
           simplify_eq; try rewrite Hn1 in *; try rewrite Hc1 in *
       end.
  all: unfold _format_state; use_equations; simpl; use_equations.
  all: eexists _, _; split; [reflexivity|]; split;
         [first [eassumption
                |view_explicit;
                 match goal with g1 : GoGame |- _ => destruct g1 end;
                 simpl in *; by subst]
         |by simpl].
Qed.

Lemma reset_refines h self g r h' :
  Store.view h self = Some g →
  Store.reset self h = (r, h') →
  ∃ r' g', reset g = (r', g')
    ∧ Store.view h' self = Some g'
    ∧ match r, r' with
      | Ok l, Ok t => Store.arrays h' !! l = Some t
      | Raise e, Raise e' => e = e'
      | _, _ => False
      end.
Proof.
  intros Hg H.
  destruct (view_Some_inv _ _ _ Hg)
    as (o & Ho & Hb & Hh & Hs & Hn & Hc & Hk & Hd).
  rewrite reset_unfold. unfold _komi in *.
  unfold Store.reset in H. symbolic H.
  all: try rewrite Hn in *.
  all: use_equations; simpl; use_equations.
  all: eexists _, _; split; [reflexivity|]; split;
         [first [eassumption
                |view_explicit; destruct g; simpl in *; by subst]
         |by simpl].
Qed.

Lemma exec_refines self c h g :
  Store.view h self = Some g →
  Store.view (Store.exec in_place self c h) self = Some (apply_call c g).
Proof.
  intros Hg. destruct c as [a|]; simpl.
  - destruct (Store.play_action in_place self a h) as [r h'] eqn:Hp.
    destruct (play_action_refines _ _ _ _ _ _ Hg Hp) as (r' & g' & -> & ? & _).
    done.
  - destruct (Store.reset self h) as [r h'] eqn:Hp.
    destruct (reset_refines _ _ _ _ _ Hg Hp) as (r' & g' & -> & ? & _).
    done.
Qed.

(** A sequence of calls on an object of the store leaves it as the same
    calls leave the game held by value. *)
Lemma run_refines self calls h g :
  Store.view h self = Some g →
  Store.view (Store.run in_place self calls h) self
  = Some (apply_calls calls g).
Proof.
  revert h g. induction calls as [|c calls IH]; intros h g Hg; [done|].
  unfold Store.run, apply_calls. simpl. by apply IH, exec_refines.
Qed.

(** Two separated objects under calls made on the one or the other, in
    any order: each ends as the game that got its own calls alone. *)
Lemma interleaved_calls l1 l2 calls h g1 g2 :
  separated h l1 l2 →
  Store.view h l1 = Some g1 → Store.view h l2 = Some g2 →
  Forall (λ lc, lc.1 = l1 ∨ lc.1 = l2) calls →
  Store.view (Store.run_all in_place calls h) l1
    = Some (apply_calls (Store.calls_on l1 calls) g1)
  ∧ Store.view (Store.run_all in_place calls h) l2
    = Some (apply_calls (Store.calls_on l2 calls) g2).
Proof.
  intros Hsep Hg1 Hg2 Hcalls. revert h g1 g2 Hsep Hg1 Hg2.
  induction Hcalls as [|[l c] calls Hl _ IH]; intros h g1 g2 Hsep Hg1 Hg2;
    [done|].
  assert (Hne : l1 ≠ l2) by apply Hsep.
  unfold Store.run_all, Store.calls_on in *. simpl in *.
  destruct Hl as [-> | ->].
  - destruct (frame_keeps l1 l2 h (Store.exec in_place l1 c h))
      as (Hsep' & _ & Hv); [apply exec_frame|done|].
    rewrite !filter_cons. simpl. rewrite decide_True, decide_False by done.
    simpl. apply IH; [done|by apply exec_refines|by rewrite Hv].
  - destruct (frame_keeps l2 l1 h (Store.exec in_place l2 c h))
      as (Hsep' & _ & Hv); [apply exec_frame|by apply separated_sym|].
    rewrite !filter_cons. simpl. rewrite decide_False, decide_True by done.
    simpl.
    apply IH; [by apply separated_sym|by rewrite Hv|by apply exec_refines].
Qed.

Lemma deepcopy_spec self h copy h1 :
  is_Some (Store.view h self) →
  Store.__deepcopy__ self h = (Ok copy, h1) →
  ∃ o o' g,
    Store.objects h !! self = Some o
    ∧ Store.view h self = Some g
    ∧ Store.objects h !! copy = None
    ∧ Store.objects h1 = <[copy:=o']> (Store.objects h)
    ∧ Store.boards h ⊆ Store.boards h1
    ∧ Store.arrays h ⊆ Store.arrays h1
    ∧ Store.boards h !! board o' = None
    ∧ Store.arrays h !! history o' = None
    ∧ Store.arrays h !! state o' = None
    ∧ Store.view h1 copy = Some (__deepcopy__ g).
Proof.
  intros [g Hg] H.
  destruct (view_Some_inv _ _ _ Hg) as (o & Ho & Hb & Hh & Hs & _).
  unfold Store.__deepcopy__ in H.
  symbolic H.
  - exists o. eexists. exists g. split; [done|]. split; [done|].
    simpl. repeat split; simpl; try (apply lookup_fresh_sub; sub_chain);
      try sub_chain.
    erewrite view_Some; [|apply lookup_insert_eq|simpl; apply lookup_insert_eq..].
    simpl. apply view_Some_inv in Hg as (o' & Ho' & Hx). simplify_eq.
    destruct g; simpl in *. unfold __deepcopy__, set_board. simpl.
    repeat f_equal; try tauto. 
    destruct Hx as (_ & Hx1 & Hx2 & _). congruence.
  - match goal with Hx : <[_:=_]> _ !! state o = Some _ |- _ =>
      rewrite lookup_insert_ne in Hx
        by (intros Heq; rewrite <- Heq, (lookup_fresh_sub _ _) in Hs; done)
    end.
    exists o. eexists. exists g. split; [done|]. split; [done|].
    simpl. repeat split; simpl; try (apply lookup_fresh_sub; sub_chain);
      try sub_chain.
    erewrite view_Some;
      [|apply lookup_insert_eq|simpl; apply lookup_insert_eq
       |simpl; rewrite lookup_insert_ne by apply fresh_insert_ne;
        apply lookup_insert_eq
       |simpl; apply lookup_insert_eq].
    simpl. apply view_Some_inv in Hg as (o' & Ho' & Hx). simplify_eq.
    destruct g; simpl in *. unfold __deepcopy__, set_board. simpl.
    repeat f_equal; tauto.
Qed.
Lemma view_weaken h h' self o g :
  Store.objects h !! self = Some o →
  Store.objects h' !! self = Some o →
  Store.boards h ⊆ Store.boards h' →
  Store.arrays h ⊆ Store.arrays h' →
  Store.view h self = Some g → Store.view h' self = Some g.
Proof.
  intros Ho Ho' Hb Ha Hg.
  apply view_Some_inv in Hg as (o0 & Ho0 & Hgb & Hgh & Hgs & ? & ? & ? & ?).
  simplify_eq.
  erewrite view_Some; [|done|by eapply lookup_weaken..].
  destruct g; simpl in *. by subst.
Qed.

(** On an object whose references lead to a board and to arrays
    [copy.deepcopy] returns. *)
Lemma deepcopy_returns h self :
  is_Some (Store.view h self) →
  ∃ copy h1, Store.__deepcopy__ self h = (Ok copy, h1).
Proof.
  intros [g Hg].
  destruct (view_Some_inv _ _ _ Hg) as (o & Ho & Hb & Hh & Hs & _).
  unfold Store.__deepcopy__, Store.getattr, Store.the_board, Store.the_array,
    Store.new_board, Store.new_array, Store.new_object, mbind, method_bind.
  simpl. repeat (first [rewrite Ho|rewrite Hb|rewrite Hh]; simpl).
  destruct (decide (state o = history o)) as [Heq|Hne].
  - unfold mret, method_ret. eauto.
  - cbn [Store.arrays Store.set_arrays].
    rewrite lookup_insert_ne by (by apply fresh_ne_lookup with (state g)).
    rewrite Hs. eauto.
Qed.

(** C9: [copy.deepcopy] of a game returns, and what it returns is a new
    object whose attributes equal the original's, with [clone()] of the
    board under a handle of its own and the history and state arrays
    copied under references of their own: none of the three is shared
    with the original.  From then on no sequence of [play_action] and
    [reset] calls on the copy changes any attribute of the original or
    the board and arrays it refers to, and no sequence of calls on the
    original changes the copy; under calls on the two in any order each
    ends as the game that got its own calls alone.  This holds whether
    the engine plays in place or not. *)
Theorem deepcopy_independent h self :
  is_Some (Store.view h self) →
  ∃ copy h1 g o o',
    Store.__deepcopy__ self h = (Ok copy, h1)
    ∧ Store.view h self = Some g
    ∧ Store.objects h !! self = Some o
    ∧ Store.objects h !! copy = None
    ∧ Store.objects h1 !! copy = Some o'
    ∧ Store.view h1 copy = Some (__deepcopy__ g)
    ∧ Store.boards h !! board o' = None
    ∧ Store.arrays h !! history o' = None
    ∧ Store.arrays h !! state o' = None
    ∧ board o' ≠ board o
    ∧ history o' ≠ history o ∧ history o' ≠ state o
    ∧ state o' ≠ history o ∧ state o' ≠ state o
    ∧ (∀ calls,
         Store.objects (Store.run in_place copy calls h1) !! self = Some o
         ∧ Store.view (Store.run in_place copy calls h1) self = Some g)
    ∧ (∀ calls,
         Store.objects (Store.run in_place self calls h1) !! copy = Some o'
         ∧ Store.view (Store.run in_place self calls h1) copy
           = Some (__deepcopy__ g))
    ∧ (∀ calls,
         Forall (λ lc, lc.1 = self ∨ lc.1 = copy) calls →
         Store.view (Store.run_all in_place calls h1) self
           = Some (apply_calls (Store.calls_on self calls) g)
         ∧ Store.view (Store.run_all in_place calls h1) copy
           = Some (apply_calls (Store.calls_on copy calls) (__deepcopy__ g))).
Proof.
  intros Hv.
  destruct (deepcopy_returns h self Hv) as (copy & h1 & Hc).
  destruct (deepcopy_spec _ _ _ _ Hv Hc)
    as (o & o' & g & Ho & Hg & Hnew & Hobj & Hbs & Has & Hb' & Hh' & Hs' & Hg').
  destruct (view_Some_inv _ _ _ Hg) as (o0 & Ho0 & Hb & Hh & Hs & _).
  simplify_eq.
  assert (Hne : self ≠ copy) by congruence.
  assert (Ho1 : Store.objects h1 !! self = Some o)
    by (rewrite Hobj, lookup_insert_ne; done).
  assert (Ho1' : Store.objects h1 !! copy = Some o')
    by (rewrite Hobj, lookup_insert_eq; done).
  assert (Hg1 : Store.view h1 self = Some g)
    by exact (view_weaken h h1 self o g Ho Ho1 Hbs Has Hg).
  assert (Hsep : separated h1 self copy).
  { split; [done|]. exists o, o'. repeat split; try done.
    - congruence.
    - exists (board g). by eapply lookup_weaken.
    - exists (history g). by eapply lookup_weaken.
    - exists (state g). by eapply lookup_weaken.
    - apply view_Some_inv in Hg' as (? & ? & ? & _). simplify_eq. eauto.
    - apply view_Some_inv in Hg' as (? & ? & ? & ? & _). simplify_eq. eauto.
    - apply view_Some_inv in Hg' as (? & ? & ? & ? & ? & _). simplify_eq.
      eauto. }
  exists copy, h1, g, o, o'. repeat split; try done; try congruence.
  - destruct (frame_keeps copy self h1 (Store.run in_place copy calls h1))
      as (_ & -> & _); [apply run_frame|by apply separated_sym|done].
  - destruct (frame_keeps copy self h1 (Store.run in_place copy calls h1))
      as (_ & _ & ->); [apply run_frame|by apply separated_sym|done].
  - destruct (frame_keeps self copy h1 (Store.run in_place self calls h1))
      as (_ & -> & _); [apply run_frame|done|done].
  - destruct (frame_keeps self copy h1 (Store.run in_place self calls h1))
      as (_ & _ & ->); [apply run_frame|done|done].
  - by apply (interleaved_calls self copy calls h1 g (__deepcopy__ g)).
  - by apply (interleaved_calls self copy calls h1 g (__deepcopy__ g)).
Qed.

(** ** Arrays are never written twice *)

Lemma exec_arrays self c h :
  Store.arrays h ⊆ Store.arrays (Store.exec in_place self c h).
Proof. apply (exec_frame self c h). Qed.

Lemma run_all_arrays calls h :
  Store.arrays h ⊆ Store.arrays (Store.run_all in_place calls h).
Proof.
  revert h. induction calls as [|[l c] calls IH]; intros h; [done|].
  unfold Store.run_all in *. simpl. etrans; [apply exec_arrays|apply IH].
Qed.

(** The reference [play_action] returns is the [state] attribute. *)
Lemma play_action_returns_state self a h ls d h1 :
  Store.play_action in_place self a h = (Ok (ls, d), h1) →
  ∃ o', Store.objects h1 !! self = Some o' ∧ state o' = ls ∧ done o' = d.
Proof.
  intros H. unfold Store.play_action in H. symbolic H.
  all: eexists; split; [first [reflexivity|apply lookup_insert_eq]|done].
Qed.

(** X14: no array is written twice.  Whatever [play_action] and [reset]
    calls are made, on whatever objects and in whatever order, every
    array that is in the store keeps its contents: [_act] writes the
    mover's slice into the array [np.roll] has just made, and [reset],
    [_format_state] make new arrays.  So the tensor a call of
    [play_action] returns - which is the array the object holds in
    [state], not a copy, with the contents the call on the game held by
    value returns - is never changed by a later call. *)
Theorem arrays_are_never_overwritten h :
  (∀ calls l x,
     Store.arrays h !! l = Some x →
     Store.arrays (Store.run_all in_place calls h) !! l = Some x)
  ∧ (∀ self a g ls d h1,
       Store.view h self = Some g →
       Store.play_action in_place self a h = (Ok (ls, d), h1) →
       ∃ t g' o',
         play_action a g = (Ok (t, d), g')
         ∧ Store.arrays h1 !! ls = Some t
         ∧ Store.objects h1 !! self = Some o' ∧ state o' = ls
         ∧ (∀ calls,
              Store.arrays (Store.run_all in_place calls h1) !! ls = Some t)).
Proof.
  split.
  - intros calls l x Hl.
    eapply lookup_weaken; [exact Hl|apply run_all_arrays].
  - intros self a g ls d h1 Hg Hp.
    destruct (play_action_refines _ _ _ _ _ _ Hg Hp)
      as (r' & g' & Hp' & _ & Hout).
    destruct r' as [[t d']|e]; [|done]. destruct Hout as [<- Ht].
    destruct (play_action_returns_state _ _ _ _ _ _ Hp)
      as (o' & Ho' & Hs & _).
    exists t, g', o'. repeat split; try done.
    intros calls. eapply lookup_weaken; [exact Ht|apply run_all_arrays].
Qed.

(** X15: [get_states] returns a copy.  On an object whose references
    lead to a board and to arrays the call returns a new array that
    holds the contents of the state and is not the array the object
    holds: the object and everything it refers to are as before, a write
    into the copy changes nothing of the game, and no later call of
    [play_action] or [reset] changes the copy. *)
Theorem get_states_is_a_copy h self g :
  Store.view h self = Some g →
  ∃ l o,
    Store.get_states self h
    = (Ok l, Store.set_arrays (<[l:=get_states g]> (Store.arrays h)) h)
    ∧ Store.arrays h !! l = None
    ∧ Store.objects h !! self = Some o ∧ l ≠ state o ∧ l ≠ history o
    ∧ Store.view (Store.get_states self h).2 self = Some g
    ∧ (∀ x, Store.view
              (Store.put_array l x (Store.get_states self h).2).2 self
            = Some g)
    ∧ (∀ calls,
         Store.arrays
           (Store.run_all in_place calls (Store.get_states self h).2) !! l
         = Some (get_states g)).
Proof.
  intros Hg.
  destruct (view_Some_inv _ _ _ Hg)
    as (o & Ho & Hb & Hh & Hs & Hn & Hc & Hk & Hd).
  set (l := fresh (dom (Store.arrays h))).
  assert (Hl : Store.arrays h !! l = None)
    by apply not_elem_of_dom, is_fresh.
  assert (Hget : Store.get_states self h
    = (Ok l, Store.set_arrays (<[l:=get_states g]> (Store.arrays h)) h)).
  { unfold Store.get_states, Store.getattr, Store.the_array, Store.new_array,
      mbind, method_bind. by rewrite Ho, Hs. }
  assert (Hls : l ≠ state o) by congruence.
  assert (Hlh : l ≠ history o) by congruence.
  exists l, o. rewrite Hget. simpl. repeat split; try done.
  - erewrite view_Some; [|done|done|simpl; by rewrite lookup_insert_ne..].
    destruct g; simpl in *. by subst.
  - intros x. unfold Store.put_array. simpl.
    erewrite view_Some; [|done|done|simpl; by rewrite !lookup_insert_ne..].
    destruct g; simpl in *. by subst.
  - intros calls. eapply lookup_weaken; [|apply run_all_arrays].
    simpl. apply lookup_insert_eq.
Qed.

(** ** Constructed games *)

(** The constructor returns when the colour is known, the side is not
    negative and the engine makes the board. *)
Lemma init_returns color n h b :
  color = "black" ∨ color = "white" → 0 ≤ n →
  pachi_py.CreateBoard n = Ok b →
  ∃ self h1, Store.__init__ color n h = (Ok self, h1).
Proof.
  intros Hc Hn Hb.
  assert (∃ pc, colormap color = Ok pc) as [pc Hpc]
    by (destruct Hc as [-> | ->]; eauto).
  destruct (np_zeros_nonneg n (HISTORY * 2)) as [hz Hhz];
    [done|unfold HISTORY; lia|].
  destruct (np_zeros_nonneg n (HISTORY * 2 + 1)) as [sz Hsz];
    [done|unfold HISTORY; lia|].
  unfold Store.__init__, Store.reset, Store.getattr, Store.setattr,
    Store.new_object, Store.new_board, Store.new_array, lift, mbind,
    method_bind, mret, method_ret.
  rewrite Hpc. simpl.
  repeat (first [rewrite lookup_insert_eq|rewrite Hb|rewrite Hhz|rewrite Hsz];
          simpl).
  eauto.
Qed.

(** What the constructor does to the store: a new object, a new board
    and two new arrays; the game it leaves is the one the constructor on
    values returns. *)
Lemma init_spec color n h self h1 :
  Store.__init__ color n h = (Ok self, h1) →
  ∃ o g,
    Store.objects h !! self = None
    ∧ Store.objects h1 = <[self:=o]> (Store.objects h)
    ∧ Store.boards h ⊆ Store.boards h1
    ∧ Store.arrays h ⊆ Store.arrays h1
    ∧ Store.boards h !! board o = None
    ∧ Store.arrays h !! history o = None
    ∧ Store.arrays h !! state o = None
    ∧ __init__ color n = Ok g
    ∧ Store.view h1 self = Some g.
Proof.
  intros H. unfold Store.__init__, Store.reset in H. symbolic H.
  eexists _, _. split; [apply not_elem_of_dom, is_fresh|]. split.
  { rewrite !insert_insert_eq. reflexivity. }
  simpl. repeat split; try sub_chain;
    try (apply lookup_fresh_sub; sub_chain).
  - unfold __init__. use_equations. simpl. rewrite reset_unfold. simpl.
    use_equations. simpl. use_equations. reflexivity.
  - view_explicit. done.
Qed.

(** X16: a constructed game shares nothing.  For a colour ["black"] or
    ["white"], a side that is not negative and a board the engine makes,
    [GoGame(color, n)] in a store returns a new object with a board and
    two arrays of its own, equal to the game the constructor returns on
    values.  Whatever games the store held stay as they were, and from
    then on no sequence of [play_action] and [reset] calls on the new
    game changes any of them, nor do calls on them change the new
    game. *)
Theorem constructed_game_is_independent color n h b :
  color = "black" ∨ color = "white" → 0 ≤ n →
  pachi_py.CreateBoard n = Ok b →
  ∃ self h1 g,
    Store.__init__ color n h = (Ok self, h1)
    ∧ __init__ color n = Ok g
    ∧ Store.objects h !! self = None
    ∧ Store.view h1 self = Some g
    ∧ (∀ other g2 calls,
         Store.view h other = Some g2 →
         Store.view h1 other = Some g2
         ∧ Store.view (Store.run in_place self calls h1) other = Some g2
         ∧ Store.view (Store.run in_place other calls h1) self = Some g).
Proof.
  intros Hc Hn Hb.
  destruct (init_returns color n h b Hc Hn Hb) as (self & h1 & H).
  destruct (init_spec _ _ _ _ _ H)
    as (o & g & Hnew & Hobj & Hbs & Has & Hb' & Hh & Hs & Hinit & Hg).
  exists self, h1, g.
  split; [done|]. split; [done|]. split; [done|]. split; [done|].
  intros other g2 calls Hv2.
  destruct (view_Some_inv _ _ _ Hv2) as (o2 & Ho2 & Hb2 & Hh2 & Hs2 & _).
  assert (Hne : self ≠ other) by congruence.
  assert (Ho2' : Store.objects h1 !! other = Some o2)
    by (rewrite Hobj, lookup_insert_ne; done).
  assert (Hg2 : Store.view h1 other = Some g2)
    by exact (view_weaken h h1 other o2 g2 Ho2 Ho2' Hbs Has Hv2).
  assert (Hsep : separated h1 self other).
  { split; [done|]. exists o, o2.
    destruct (view_Some_inv _ _ _ Hg) as (o' & Ho' & Hb'' & Hh' & Hs' & _).
    assert (o' = o) as ->
      by (rewrite Hobj, lookup_insert_eq in Ho'; congruence).
    split; [by rewrite Hobj, lookup_insert_eq|]. split; [done|].
    split; [congruence|]. split; [repeat split; eauto|].
    repeat split;
      [exists (board g2)|exists (history g2)|exists (state g2)];
      by eapply lookup_weaken. }
  split; [done|]. split.
  - destruct (frame_keeps self other h1 (Store.run in_place self calls h1))
      as (_ & _ & ->); [apply run_frame|done|done].
  - destruct (frame_keeps other self h1 (Store.run in_place other calls h1))
      as (_ & _ & ->); [apply run_frame|by apply separated_sym|done].
Qed.

End Frame.

(** On the small engine, playing in place: the copy of the 9 x 9 game is
    made, and moves and a reset on it leave the original as it was. *)
Lemma deepcopy_independent_witness :
  ∃ copy,
    (Store.__deepcopy__ 1%positive
       (@Store.__init__ Stub.engine "black" 9 Store.empty_heap).2).1
    = Ok copy
    ∧ Store.view
        (Store.run true copy
           [Store.Play 0; Store.Play 81; Store.Reset; Store.Play 40]
           two_games)
        1%positive
      = Store.view two_games 1%positive.
Proof.
  destruct (deepcopy_independent true
              (@Store.__init__ Stub.engine "black" 9 Store.empty_heap).2
              1%positive)
    as (copy & h1 & g & o & o' & Hd & _ & _ & _ & _ & _ & _ & _ & _ & _ & _
        & _ & _ & _ & Hcopy & _ & _).
  - eexists. by vm_compute.
  - exists copy. split; [by rewrite Hd|].
    replace two_games with h1 by (unfold two_games; by rewrite Hd).
    rewrite (proj2 (Hcopy _)). symmetry. exact (proj2 (Hcopy [])).
Defined.

(** ** The codec, from coordinates to actions *)

(** [mapM] on results, element by element. *)
Lemma mapM_cons_result {A B} (f : A → result B) (x : A) (l : list A) :
  mapM f (x :: l)
  = match f x with
    | Raise e => Raise e
    | Ok y => match mapM f l with
              | Raise e => Raise e
              | Ok k => Ok (y :: k)
              end
    end.
Proof.
  change (mapM f (x :: l)) with (y ← f x; k ← mapM f l; mret (y :: k)).
  destruct (f x); [|done]. simpl. destruct (mapM f l); done.
Qed.

Lemma mapM_Ok {A B} (f : A → result B) (l : list A) (k : list B) :
  mapM f l = Ok k ↔ Forall2 (λ x y, f x = Ok y) l k.
Proof.
  revert k. induction l as [|x l IH]; intros k.
  - split.
    + intros [= <-]. constructor.
    + intros Hk. by inversion Hk.
  - rewrite mapM_cons_result. split.
    + destruct (f x) as [y|] eqn:Hy; [|done].
      destruct (mapM f l) as [k'|] eqn:Hk'; [|done].
      intros [= <-]. constructor; [done|]. by apply IH.
    + intros Hk. inversion Hk as [|? y ? k' Hy Hk']; subst.
      rewrite Hy. apply IH in Hk'. by rewrite Hk'.
Qed.

Section CoordClaims.
Context `{E : pachi_py.Engine} {L : CodecLaws}.

Lemma coord_to_action_back (board : pachi_py.Board) (c : Z) :
  move_coord board c →
  ∃ a, _coord_to_action board c = Ok a
       ∧ 0 ≤ a ≤ pachi_py.size board ^ 2 + 1
       ∧ _action_to_coord board a = Ok c
       ∧ (c = pachi_py.PASS_COORD → a = pachi_py.size board ^ 2)
       ∧ (c = pachi_py.RESIGN_COORD → a = pachi_py.size board ^ 2 + 1)
       ∧ (c ≠ pachi_py.PASS_COORD → c ≠ pachi_py.RESIGN_COORD →
            a < pachi_py.size board ^ 2
            ∧ pachi_py.coord_to_ij board c
              = Ok (a / pachi_py.size board, a mod pachi_py.size board)).
Proof.
  set (n := pachi_py.size board).
  unfold _coord_to_action, _action_to_coord, _pass_action, _resign_action.
  fold n. pose proof pass_not_resign as Hpr.
  assert (Hpow : n ^ 2 = n * n) by apply Z.pow_2_r.
  assert (Hsq : 0 ≤ n ^ 2) by (rewrite Hpow; apply Z.square_nonneg).
  intros [->|[->|(i & j & Hi & Hj & Hc)]].
  - exists (n ^ 2). rewrite !Z.eqb_refl.
    repeat split; try done; lia.
  - exists (n ^ 2 + 1).
    destruct (Z.eqb_spec pachi_py.RESIGN_COORD pachi_py.PASS_COORD);
      [congruence|].
    destruct (Z.eqb_spec (n ^ 2 + 1) (n ^ 2)); [lia|].
    rewrite !Z.eqb_refl.
    repeat split; try done; try lia.
  - destruct (coord_of_point board i j Hi Hj) as (c' & Hc' & Hcp & Hcr & Hij).
    fold n in Hi, Hj. assert (c' = c) as -> by congruence.
    exists (i * n + j).
    destruct (Z.eqb_spec c pachi_py.PASS_COORD); [done|].
    destruct (Z.eqb_spec c pachi_py.RESIGN_COORD); [done|].
    rewrite Hij. simpl.
    assert (Ha : 0 ≤ i * n + j < n ^ 2) by (rewrite Hpow; nia).
    destruct (Z.eqb_spec (i * n + j) (n ^ 2)); [lia|].
    destruct (Z.eqb_spec (i * n + j) (n ^ 2 + 1)); [lia|].
    unfold floordiv, pymod. destruct (Z.eqb_spec n 0); [lia|]. simpl.
    destruct (div_mod_row n i j) as [-> ->]; [lia|].
    repeat split; try done; lia.
Qed.

(** X1: the codec read from the engine's side.  A coordinate the engine can
    name as a move - the pass or the resign sentinel, or the coordinate
    of a point of the board - is turned into an action between 0 and
    [size ^ 2 + 1] by [_coord_to_action], and [_action_to_coord] turns that
    action back into the coordinate.  Pass is [size ^ 2], resign is
    [size ^ 2 + 1], a point is below [size ^ 2]. *)
Theorem coord_round_trip (board : pachi_py.Board) (c : Z) :
  move_coord board c →
  ∃ a, _coord_to_action board c = Ok a
       ∧ 0 ≤ a ≤ pachi_py.size board ^ 2 + 1
       ∧ _action_to_coord board a = Ok c
       ∧ (c = pachi_py.PASS_COORD → a = _pass_action (pachi_py.size board))
       ∧ (c = pachi_py.RESIGN_COORD →
            a = _resign_action (pachi_py.size board))
       ∧ (c ≠ pachi_py.PASS_COORD → c ≠ pachi_py.RESIGN_COORD →
            a < _pass_action (pachi_py.size board)
            ∧ pachi_py.coord_to_ij board c
              = Ok (a / pachi_py.size board, a mod pachi_py.size board)).
Proof. apply coord_to_action_back. Qed.

Lemma Forall2_back_NoDup {A B} (g : B → result A) (ys : list B) (xs : list A) :
  Forall2 (λ y x, g y = Ok x) ys xs → NoDup xs → NoDup ys.
Proof.
  induction 1 as [|y x ys xs Hy Hys IH]; [constructor|].
  intros [Hx Hxs]%NoDup_cons. constructor; [|by apply IH].
  intros Hin. apply Hx.
  apply list_elem_of_lookup in Hin as [i Hi].
  destruct (Forall2_lookup_l _ _ _ _ _ Hys Hi) as (x' & Hx' & Hg).
  assert (x' = x) as -> by congruence.
  by eapply list_elem_of_lookup_2.
Qed.

Lemma legal_actions_back (self : GoGame) :
  Forall (move_coord (board self))
    (pachi_py.get_legal_coords (board self) (player_color self) true) →
  ∃ actions,
    get_legal_actions self = Ok actions
    ∧ Forall2 (λ c a, _coord_to_action (board self) c = Ok a
                      ∧ _action_to_coord (board self) a = Ok c
                      ∧ 0 ≤ a ≤ pachi_py.size (board self) ^ 2 + 1)
        (pachi_py.get_legal_coords (board self) (player_color self) true)
        actions.
Proof.
  unfold get_legal_actions.
  generalize (pachi_py.get_legal_coords (board self) (player_color self) true).
  intros l Hl. induction Hl as [|c l Hc Hl (actions & Hm & Hall)].
  - exists []. split; [done|constructor].
  - destruct (coord_to_action_back _ _ Hc) as (a & Ha & Hr & Hb & _).
    exists (a :: actions). split.
    + apply mapM_Ok. constructor; [done|].
      apply mapM_Ok in Hm. done.
    + constructor; done.
Qed.

(** X2: [get_legal_actions] on a position whose legal coordinates are
    sentinels or points of the board returns one action for each
    coordinate, in the engine's order; every action lies between 0 and
    [size ^ 2 + 1], [_action_to_coord] maps the list of actions back onto
    the engine's list of coordinates, and distinct coordinates get
    distinct actions. *)
Theorem get_legal_actions_round_trip (self : GoGame) :
  Forall (move_coord (board self))
    (pachi_py.get_legal_coords (board self) (player_color self) true) →
  ∃ actions,
    get_legal_actions self = Ok actions
    ∧ length actions
      = length (pachi_py.get_legal_coords (board self) (player_color self)
                  true)
    ∧ Forall (λ a, 0 ≤ a ≤ pachi_py.size (board self) ^ 2 + 1) actions
    ∧ mapM (_action_to_coord (board self)) actions
      = Ok (pachi_py.get_legal_coords (board self) (player_color self) true)
    ∧ (NoDup (pachi_py.get_legal_coords (board self) (player_color self)
                true) →
       NoDup actions).
Proof.
  intros Hl. destruct (legal_actions_back self Hl) as (actions & Hm & Hall).
  exists actions. split; [done|]. split; [|split; [|split]].
  - symmetry. by eapply Forall2_length.
  - eapply Forall2_Forall_r; [exact Hall|].
    apply Forall_true. intros c a (_ & _ & Hr). done.
  - apply mapM_Ok. apply Forall2_flip.
    eapply Forall2_impl; [exact Hall|]. intros c a (_ & Hb & _). done.
  - apply Forall2_back_NoDup with (g := _action_to_coord (board self)).
    apply Forall2_flip.
    eapply Forall2_impl; [exact Hall|]. intros c a (_ & Hb & _). done.
Qed.

End CoordClaims.

Section CodecEdges.
Context `{E : pachi_py.Engine}.

(** X4: what [_action_to_coord] does with an action that is neither the
    pass nor the resign action.  On a board of side 0 it raises
    [ZeroDivisionError].  On a board of side at least 1 it asks the engine
    for the coordinate of row [a // size], column [a % size], with
    Python's rounding toward minus infinity: the column is always a
    column of the board, the row is a row of the board exactly when
    [0 ≤ a < size ^ 2], and a negative action gives a negative row. *)
Theorem action_to_coord_rows (board : pachi_py.Board) (a : Z) :
  a ≠ _pass_action (pachi_py.size board) →
  a ≠ _resign_action (pachi_py.size board) →
  (pachi_py.size board = 0 →
     _action_to_coord board a = Raise ZeroDivisionError)
  ∧ (1 ≤ pachi_py.size board →
       _action_to_coord board a
       = pachi_py.ij_to_coord board (a / pachi_py.size board)
           (a mod pachi_py.size board)
       ∧ 0 ≤ a mod pachi_py.size board < pachi_py.size board
       ∧ (0 ≤ a / pachi_py.size board < pachi_py.size board
          ↔ 0 ≤ a < pachi_py.size board ^ 2)
       ∧ (a < 0 → a / pachi_py.size board < 0)).
Proof.
  set (n := pachi_py.size board).
  unfold _action_to_coord, _pass_action, _resign_action, floordiv, pymod.
  fold n. intros Hp Hr.
  destruct (Z.eqb_spec a (n ^ 2)); [done|].
  destruct (Z.eqb_spec a (n ^ 2 + 1)); [done|].
  split.
  - intros ->. done.
  - intros Hn. destruct (Z.eqb_spec n 0); [lia|].
    split; [done|]. split; [apply Z.mod_pos_bound; lia|].
    split; [split|].
    + intros [Hlo Hhi]. pose proof (Z.div_mod a n ltac:(lia)) as Hdm.
      pose proof (Z.mod_pos_bound a n ltac:(lia)). nia.
    + intros [Hlo Hhi]. split; [apply Z.div_pos; lia|].
      apply Z.div_lt_upper_bound; lia.
    + intros Ha. apply Z.div_lt_upper_bound; lia.
Qed.

End CodecEdges.

Lemma action_to_coord_rows_witness :
  _action_to_coord (board opening) (-1)
  = pachi_py.ij_to_coord (board opening) (-1) 8.
Proof.
  destruct (action_to_coord_rows (board opening) (-1)) as [_ H];
    [by vm_compute..|].
  destruct H as [H _]; [by vm_compute|]. exact H.
Defined.

Lemma coord_round_trip_witness :
  _coord_to_action (board opening) 60 ≫= _action_to_coord (board opening)
  = Ok 60.
Proof.
  destruct (coord_round_trip (board opening) 60) as (a & Ha & _ & Hc & _).
  - right; right. exists 4, 4. by vm_compute.
  - rewrite Ha. exact Hc.
Defined.

(** ** The constructor and [reset] *)

Section Init.
Context `{E : pachi_py.Engine}.

Lemma colormap_Ok (color : string) (pc : Z) :
  colormap color = Ok pc
  ↔ (color = "black" ∧ pc = pachi_py.BLACK)
    ∨ (color = "white" ∧ pc = pachi_py.WHITE).
Proof.
  unfold colormap.
  destruct (String.eqb_spec color "black") as [->|Hb].
  { split; [intros [= <-]; by left|]. intros [[_ ->]|[[=] _]]. done. }
  destruct (String.eqb_spec color "white") as [->|Hw].
  { split; [intros [= <-]; by right|]. intros [[[=] _]|[_ ->]]. done. }
  split; [done|]. intros [[-> _]|[-> _]]; done.
Qed.

Lemma np_zeros_replicate (n d : Z) :
  0 ≤ n → 0 ≤ d → np_zeros n d = Ok (replicate (Z.to_nat d) (const_plane n 0)).
Proof.
  intros Hn Hd. unfold np_zeros, np_full.
  destruct (Z.ltb_spec n 0); [lia|]. destruct (Z.ltb_spec d 0); [lia|]. done.
Qed.

Lemma np_zeros_negative (n d : Z) : n < 0 → np_zeros n d = Raise ValueError.
Proof.
  intros Hn. unfold np_zeros, np_full. destruct (Z.ltb_spec n 0); [done|lia].
Qed.

Lemma init_Ok (color : string) (n : Z) (g : GoGame) :
  __init__ color n = Ok g
  ↔ ((color = "black" ∧ player_color g = pachi_py.BLACK)
     ∨ (color = "white" ∧ player_color g = pachi_py.WHITE))
    ∧ 0 ≤ n ∧ board_size g = n ∧ komi g = _komi g
    ∧ pachi_py.CreateBoard n = Ok (board g) ∧ done g = false
    ∧ history g = replicate 16 (const_plane n 0)
    ∧ state g = replicate 17 (const_plane n 0).
Proof.
  unfold __init__. split.
  - destruct (colormap color) as [pc|] eqn:Hpc; [|done]. simpl.
    apply colormap_Ok in Hpc. rewrite reset_unfold. simpl.
    destruct (pachi_py.CreateBoard n) as [b|] eqn:Hb; [|done].
    destruct (Z_lt_le_dec n 0) as [Hn|Hn].
    { rewrite np_zeros_negative by done. done. }
    rewrite !np_zeros_replicate by (unfold HISTORY; lia).
    intros [= <-]. simpl. repeat split; done.
  - intros (Hc & Hn & Hs & Hk & Hb & Hd & Hh & Ht).
    assert (Hpc : colormap color = Ok (player_color g))
      by (by apply colormap_Ok).
    rewrite Hpc. simpl. rewrite reset_unfold. simpl. rewrite Hb.
    rewrite !np_zeros_replicate by (unfold HISTORY; lia).
    destruct g; simpl in *. unfold _komi in Hk. simpl in Hk.
    subst. done.
Qed.

Lemma colormap_KeyError (color : string) :
  color ≠ "black" → color ≠ "white" → colormap color = Raise KeyError.
Proof.
  intros Hb Hw. unfold colormap.
  destruct (String.eqb_spec color "black"); [done|].
  destruct (String.eqb_spec color "white"); done.
Qed.

(** X5: the constructor.  [GoGame(color, n)] returns an object exactly when
    the colour is ["black"] or ["white"], [CreateBoard(n)] returns a board
    and [n] is not negative; the object then holds [n], the colour's code,
    the komi of a board of side [n], that board, [done = False], a
    history of 16 slices of zeros and a state of 17 slices of zeros, all of
    side [n].  Any other colour raises [KeyError]; an exception of
    [CreateBoard] is passed on; a negative [n] that the engine accepts
    raises the [ValueError] of [np.zeros]. *)
Theorem init_outcomes (color : string) (n : Z) :
  (∀ g, __init__ color n = Ok g
        ↔ ((color = "black" ∧ player_color g = pachi_py.BLACK)
           ∨ (color = "white" ∧ player_color g = pachi_py.WHITE))
          ∧ 0 ≤ n ∧ board_size g = n ∧ komi g = _komi g
          ∧ pachi_py.CreateBoard n = Ok (board g) ∧ done g = false
          ∧ history g = replicate (Z.to_nat (2 * HISTORY)) (const_plane n 0)
          ∧ state g
            = replicate (Z.to_nat (2 * HISTORY + 1)) (const_plane n 0))
  ∧ (color ≠ "black" → color ≠ "white" → __init__ color n = Raise KeyError)
  ∧ (∀ e, color = "black" ∨ color = "white" →
          pachi_py.CreateBoard n = Raise e → __init__ color n = Raise e)
  ∧ (∀ b, color = "black" ∨ color = "white" →
          pachi_py.CreateBoard n = Ok b → n < 0 →
          __init__ color n = Raise ValueError).
Proof.
  split; [apply init_Ok|]. split; [|split].
  - intros Hb Hw. unfold __init__. by rewrite colormap_KeyError.
  - intros e Hc Hb. unfold __init__.
    assert (∃ pc, colormap color = Ok pc) as [pc ->].
    { destruct Hc as [-> | ->]; eauto. }
    simpl. rewrite reset_unfold. simpl. by rewrite Hb.
  - intros b Hc Hb Hn. unfold __init__.
    assert (∃ pc, colormap color = Ok pc) as [pc ->].
    { destruct Hc as [-> | ->]; eauto. }
    simpl. rewrite reset_unfold. simpl. rewrite Hb.
    by rewrite np_zeros_negative.
Qed.

(** [_act] assigns the board, the history and the colour, nothing else. *)
Lemma _act_keeps (a : Z) (self self' : GoGame) (r : result unit) :
  _act a self = (r, self') →
  board_size self' = board_size self ∧ komi self' = komi self
  ∧ done self' = done self ∧ state self' = state self.
Proof.
  rewrite _act_unfold.
  destruct (_action_to_coord _ _); [|by intros [= <- <-]].
  destruct (pachi_py.play _ _ _); [|by intros [= <- <-]]. simpl.
  destruct (getitem _ _); [|by intros [= <- <-]].
  destruct (setitem0 _ _); by intros [= <- <-].
Qed.

(** What [play_action] keeps, whatever it returns or raises: the side and
    the komi; and [done] is set only on a board the engine calls
    terminal. *)
Lemma play_action_keeps (a : Z) (self self' : GoGame)
    (r : result (ndarray * bool)) :
  play_action a self = (r, self') →
  board_size self' = board_size self ∧ komi self' = komi self
  ∧ ((done self = true → pachi_py.is_terminal (board self) = true) →
     done self' = true → pachi_py.is_terminal (board self') = true).
Proof.
  rewrite play_action_unfold.
  destruct (done self) eqn:Hd.
  - destruct (_format_state _ _ _); intros [= <- <-]; simpl; auto.
  - destruct (_act a self) as [[[]|e] s1] eqn:Hact.
    + apply _act_keeps in Hact as (Hn & Hk & _). simpl.
      destruct (_format_state _ _ _); intros [= <- <-]; simpl; auto.
    + apply _act_keeps in Hact as (Hn & Hk & Hd' & _).
      intros [= <- <-]. repeat split; try done. intros _. congruence.
Qed.

Lemma reset_keeps (self self' : GoGame) (r : result ndarray) :
  reset self = (r, self') →
  board_size self' = board_size self ∧ komi self' = _komi self'
  ∧ player_color self' = player_color self
  ∧ ((done self = true → pachi_py.is_terminal (board self) = true) →
     done self' = true → pachi_py.is_terminal (board self') = true).
Proof.
  rewrite reset_unfold. simpl.
  destruct (pachi_py.CreateBoard _); [|by intros [= <- <-]].
  destruct (np_zeros _ (HISTORY * 2)); [|by intros [= <- <-]].
  destruct (np_zeros _ (HISTORY * 2 + 1)); by intros [= <- <-].
Qed.

(** What holds of every object a caller can hold, whatever the engine:
    the side is the one given to the constructor, which the engine makes
    boards of; the komi is that of the side; [done] is set only on a
    terminal board. *)
Lemma reachable_keeps (self : GoGame) :
  reachable self →
  0 ≤ board_size self
  ∧ (∃ b, pachi_py.CreateBoard (board_size self) = Ok b)
  ∧ komi self = _komi self
  ∧ (done self = true → pachi_py.is_terminal (board self) = true).
Proof.
  induction 1 as [color n self Hinit|self r self' _ IH Hr|self a r self' _ IH Hp].
  - apply init_Ok in Hinit as (_ & Hn & Hs & Hk & Hb & Hd & _).
    rewrite Hs. repeat split; eauto. congruence.
  - destruct IH as (Hn & Hb & Hk & Hd).
    apply reset_keeps in Hr as (Hn' & Hk' & _ & Hd').
    rewrite Hn'. repeat split; auto.
  - destruct IH as (Hn & Hb & Hk & Hd).
    apply play_action_keeps in Hp as (Hn' & Hk' & Hd').
    rewrite Hn'. repeat split; auto.
    rewrite Hk', Hk. unfold _komi. by rewrite Hn'.
Qed.

End Init.

Section Moves.
Context `{E : pachi_py.Engine} {L : BoardLaws}.

(** A move the codec and the engine accept, on a consistent object: the
    call returns, with the new board, the rolled history, the other
    colour, the engine's verdict on the new board and the tensor of the
    new history and the new colour. *)
Lemma play_action_moves (self : GoGame) (a c : Z) (b' : pachi_py.Board) :
  consistent self → done self = false →
  _action_to_coord (board self) a = Ok c →
  pachi_py.play (board self) c (player_color self) = Ok b' →
  ∃ p, getitem (pachi_py.encode b') (player_color self - 1) = Ok p
    ∧ square (board_size self) p
    ∧ play_action a self
      = (Ok (p :: take (Z.to_nat (2 * HISTORY) - 1) (history self)
               ++ [const_plane (board_size self)
                     (pachi_py.stone_other (player_color self) - 1)],
             pachi_py.is_terminal b'),
         {| board_size := board_size self;
            player_color := pachi_py.stone_other (player_color self);
            komi := komi self;
            board := b';
            done := pachi_py.is_terminal b';
            history := p :: take (Z.to_nat (2 * HISTORY) - 1) (history self);
            state := p :: take (Z.to_nat (2 * HISTORY) - 1) (history self)
                     ++ [const_plane (board_size self)
                           (pachi_py.stone_other (player_color self) - 1)]
         |}).
Proof.
  intros Hcons Hd Hc Hp.
  destruct (_act_consistent a self Hcons)
    as [(e & _ & [Hf|(c' & Hc' & Hf)])|(c' & b'' & p & Hc' & Hp' & Hg & Hsq & Hact)];
    [congruence..|].
  assert (c' = c) as -> by congruence.
  assert (b'' = b') as -> by congruence.
  exists p. split; [done|]. split; [done|].
  rewrite play_action_unfold, Hd, Hact. simpl.
  destruct Hcons as (Hn & _ & _ & _ & Hall).
  rewrite _format_state_square;
    [done|done|constructor; [done|by apply Forall_take]].
Qed.

(** On a consistent object a call of [play_action] that raises has
    changed nothing. *)
Lemma play_action_raises (self self' : GoGame) (a : Z) (e : exception) :
  consistent self → play_action a self = (Raise e, self') →
  self' = self ∧ done self = false ∧ move_fails self a e.
Proof.
  intros Hcons. rewrite play_action_unfold.
  destruct (done self) eqn:Hd.
  - destruct Hcons as (Hn & _ & _ & _ & Hall).
    rewrite _format_state_square by done. done.
  - destruct (_act_consistent a self Hcons)
      as [(e' & Hact & Hf)|(c & b' & p & Hc & Hp & _)].
    + rewrite Hact. intros [= <- <-]. done.
    + destruct (play_action_moves self a c b' Hcons Hd Hc Hp)
        as (p' & _ & _ & Hplay).
      rewrite play_action_unfold, Hd in Hplay. rewrite Hplay. done.
Qed.

(** X7: [play_action] is all or nothing on a game a caller can hold.
    Whatever exception a call ends with, the object is left exactly as it
    was; the game was not over, and the exception is the one raised by
    the conversion of the action or by the engine's [play]: nothing is
    raised once the board has been assigned. *)
Theorem play_action_exception_safe (self self' : GoGame) (a : Z)
    (e : exception) :
  reachable self → play_action a self = (Raise e, self') →
  self' = self ∧ done self = false ∧ move_fails self a e.
Proof.
  intros Hr%reachable_consistent. by apply play_action_raises.
Qed.

(** X8: the step that makes a move.  In a game that is not over, an action
    whose coordinate the engine plays makes [play_action] return.  The
    tensor returned is: the mover's slice of the new board's encoding,
    then the first 15 slices of the old history, then one slice filled
    with the code of the colour that moves next (1 after a move of black,
    0 after a move of white).  The flag returned is the engine's
    [is_terminal] of the new board, and the object holds the new board,
    the new history, the tensor, the flag and the other colour. *)
Theorem play_action_step (self : GoGame) (a c : Z) (b' : pachi_py.Board) :
  reachable self → done self = false →
  _action_to_coord (board self) a = Ok c →
  pachi_py.play (board self) c (player_color self) = Ok b' →
  ∃ p next,
    getitem (pachi_py.encode b') (player_color self - 1) = Ok p
    ∧ next = const_plane (board_size self)
               (pachi_py.stone_other (player_color self) - 1)
    ∧ (player_color self = pachi_py.BLACK →
       next = const_plane (board_size self) 1)
    ∧ (player_color self = pachi_py.WHITE →
       next = const_plane (board_size self) 0)
    ∧ play_action a self
      = (Ok (p :: take 15 (history self) ++ [next], pachi_py.is_terminal b'),
         {| board_size := board_size self;
            player_color := pachi_py.stone_other (player_color self);
            komi := komi self;
            board := b';
            done := pachi_py.is_terminal b';
            history := p :: take 15 (history self);
            state := p :: take 15 (history self) ++ [next] |}).
Proof.
  intros Hcons%reachable_consistent Hd Hc Hp.
  destruct (play_action_moves self a c b' Hcons Hd Hc Hp)
    as (p & Hg & _ & Hplay).
  exists p. eexists. split; [done|]. split; [reflexivity|].
  split; [|split].
  - intros ->. by rewrite stone_other_BLACK.
  - intros ->. by rewrite stone_other_WHITE.
  - exact Hplay.
Qed.

Lemma play_actions_snoc (actions : list Z) (a : Z) (self : GoGame) :
  play_actions (actions ++ [a]) self
  = (play_action a (play_actions actions self)).2.
Proof. unfold play_actions. by rewrite foldl_snoc. Qed.

Lemma all_moves_snoc (actions : list Z) (a : Z) (self : GoGame) :
  all_moves (actions ++ [a]) self = true →
  all_moves actions self = true
  ∧ done (play_actions actions self) = false
  ∧ ∃ r, (play_action a (play_actions actions self)).1 = Ok r.
Proof.
  revert self. induction actions as [|a' l IH]; intros self; simpl.
  - rewrite andb_true_r. intros [Hd Hr]%andb_true_iff.
    apply negb_true_iff in Hd.
    destruct (play_action a self).1 eqn:Hp; [eauto|done].
  - intros [[Hd Hr]%andb_true_iff Hl]%andb_true_iff.
    destruct (IH _ Hl) as (Hl' & Hd' & Hr').
    rewrite Hd, Hr, Hl'. done.
Qed.

(** A call that makes a move shifts the history by one slice. *)
Lemma play_action_shift (self : GoGame) (a : Z) (r : ndarray * bool) :
  consistent self → done self = false →
  (play_action a self).1 = Ok r →
  ∃ p, getitem (pachi_py.encode (board (play_action a self).2))
         (player_color self - 1) = Ok p
    ∧ history (play_action a self).2
      = p :: take (Z.to_nat (2 * HISTORY) - 1) (history self)
    ∧ player_color (play_action a self).2
      = pachi_py.stone_other (player_color self).
Proof.
  intros Hcons Hd Hr.
  destruct (_act_consistent a self Hcons)
    as [(e & Hact & _)|(c & b' & p & Hc & Hp & _)].
  - rewrite play_action_unfold, Hd, Hact in Hr. done.
  - destruct (play_action_moves self a c b' Hcons Hd Hc Hp)
      as (p' & Hg & _ & Hplay).
    rewrite Hplay. simpl. eauto.
Qed.

(** X9: the history is a window on the last 16 moves.  After a sequence of
    calls that each made a move, the slice written by move [m] (the
    mover's slice of the board's encoding right after that move) is at
    depth [n - m], where [n] is the number of moves, as long as that is
    below 16; the slices behind the moves are those the history started
    with, moved back by [n].  The colours take turns, so the slices of
    the window belong to the two colours alternately: after an even
    number of moves the colour to move is the one that began, after an
    odd number the other one. *)
Theorem history_window (self : GoGame) (actions : list Z) :
  reachable self → all_moves actions self = true →
  (∀ m, (0 < m ≤ length actions)%nat → (length actions - m < 16)%nat →
     ∃ p, getitem
            (pachi_py.encode (board (play_actions (take m actions) self)))
            (player_color (play_actions (take (m - 1) actions) self) - 1)
          = Ok p
        ∧ history (play_actions actions self) !! (length actions - m)%nat
          = Some p)
  ∧ (∀ k, (length actions ≤ k < 16)%nat →
       history (play_actions actions self) !! k
       = history self !! (k - length actions)%nat)
  ∧ player_color (play_actions actions self)
    = (if Nat.even (length actions) then player_color self
       else pachi_py.stone_other (player_color self)).
Proof.
  intros Hr. induction actions as [|a l IH] using rev_ind.
  { intros _. split; [simpl; lia|]. split; [|done].
    intros k Hk. simpl. by rewrite Nat.sub_0_r. }
  intros (Hl & Hd & [r Hret])%all_moves_snoc.
  destruct (IH Hl) as (IH1 & IH2 & IH3). clear IH.
  assert (Hcons : consistent (play_actions l self))
    by by apply reachable_consistent, reachable_play_actions.
  destruct (play_action_shift _ a r Hcons Hd Hret) as (p & Hg & Hh & Hcol).
  rewrite play_actions_snoc, length_app. simpl. rewrite Hh.
  split; [|split].
  - intros m Hm Hdepth.
    destruct (decide (m = length l + 1)%nat) as [->|Hne].
    + replace (length l + 1 - (length l + 1))%nat with 0%nat by lia.
      replace (length l + 1 - 1)%nat with (length l) by lia.
      rewrite take_app_length.
      rewrite (take_ge (l ++ [a])) by (rewrite length_app; simpl; lia).
      rewrite play_actions_snoc. eauto.
    + destruct (IH1 m) as (q & Hq & Hslice); [lia..|].
      rewrite !take_app_le by lia.
      exists q. split; [done|].
      replace (length l + 1 - m)%nat with (S (length l - m)) by lia.
      simpl. rewrite lookup_take_lt by (vm_compute Z.to_nat; lia). done.
  - intros k Hk. destruct k as [|k]; [lia|]. simpl.
    rewrite lookup_take_lt by (vm_compute Z.to_nat; lia).
    rewrite IH2 by lia. f_equal. lia.
  - rewrite Hcol, IH3. rewrite Nat.add_1_r, Nat.even_succ, <- Nat.negb_even.
    destruct (reachable_consistent self Hr) as (_ & _ & Hc & _).
    destruct (Nat.even (length l)); simpl; [done|].
    destruct Hc as [-> | ->];
      by rewrite ?stone_other_BLACK, ?stone_other_WHITE, ?stone_other_BLACK.
Qed.

End Moves.

Section ResetClaims.
Context `{E : pachi_py.Engine} {L : BoardLaws}.

(** X6: [reset] on a game a caller can hold always returns, and leaves the
    object the constructor builds for the side of the game and the colour
    that is to move when [reset] is called: the board is new, [done] is
    [False], the history and the tensor returned are zeros.  The colour
    to move is not reset: after an odd number of moves of a game built
    for black, [reset] leaves the object [GoGame("white", n)]. *)
Theorem reset_rebuilds (self : GoGame) :
  reachable self →
  ∃ color g0,
    colormap color = Ok (player_color self)
    ∧ __init__ color (board_size self) = Ok g0
    ∧ reset self = (Ok (state g0), g0)
    ∧ state g0
      = replicate (Z.to_nat (2 * HISTORY + 1))
          (const_plane (board_size self) 0).
Proof.
  intros Hr.
  destruct (reachable_keeps self Hr) as (Hn & [b Hb] & _ & _).
  destruct (reachable_consistent self Hr) as (_ & _ & Hc & _).
  assert (∃ color, colormap color = Ok (player_color self)) as [color Hcol].
  { destruct Hc as [-> | ->]; [by exists "black"|by exists "white"]. }
  assert (Hreset : ∃ g0, reset self = (Ok (state g0), g0)
            ∧ state g0 = replicate 17 (const_plane (board_size self) 0)).
  { destruct (reset self) as [r g0] eqn:Hreset. exists g0.
    rewrite reset_unfold in Hreset. simpl in Hreset. rewrite Hb in Hreset.
    rewrite !np_zeros_replicate in Hreset by (unfold HISTORY; lia).
    injection Hreset as <- <-. done. }
  destruct Hreset as (g0 & Hreset & Hstate).
  exists color, g0. repeat split; try done.
  unfold __init__. rewrite Hcol. simpl.
  erewrite (reset_seed self); [done|done|done|exact Hreset].
Qed.

End ResetClaims.

Section Invariants.
Context `{E : pachi_py.Engine}.
Variable str : Q → string.

(** X10: [done] is set only on a board the engine calls terminal.  On every
    game a caller can hold - after the constructor, after [reset], after
    [play_action], returned or raised - [done = True] implies
    [board.is_terminal]. *)
Theorem done_means_terminal (self : GoGame) :
  reachable self → done self = true →
  pachi_py.is_terminal (board self) = true.
Proof. intros Hr. apply (reachable_keeps self Hr). Qed.

Lemma half_integer_nonzero (k z : Z) (q : Q) :
  (q == inject_Z z)%Q → ¬ ((2 * k + 1 # 2) + q == 0)%Q.
Proof.
  intros Hq Hz. rewrite Hq in Hz. unfold Qeq, Qplus, inject_Z in Hz.
  simpl in Hz. lia.
Qed.

(** X11: no tie on the usual boards.  On every game a caller can hold the
    komi is the one of the side of the board; for a side from 9 to 19 it
    is 5.5 or 7.5, so when the engine's score is a whole number the sum
    of the two is never zero: [get_reward] returns 1 or -1, never 0, and
    [get_result_string] takes the branch with the margin, never the one
    of the tie. *)
Theorem no_tie_on_standard_boards (self : GoGame) (z : Z) :
  reachable self →
  9 ≤ board_size self ≤ 19 →
  (pachi_py.official_score (board self) == inject_Z z)%Q →
  (komi self = 11 # 2 ∨ komi self = 15 # 2)
  ∧ ¬ (score self == 0)%Q
  ∧ (get_reward self = 1 ∨ get_reward self = -1)
  ∧ get_result_string str self
    = players (Qgtb (score self) 0) +:+ "+" +:+ str (Qabs (score self)).
Proof.
  intros Hr Hn Hz.
  destruct (reachable_keeps self Hr) as (_ & _ & Hk & _).
  assert (Hkomi : komi self = 11 # 2 ∨ komi self = 15 # 2).
  { rewrite Hk. unfold _komi.
    destruct (Z.leb_spec 14 (board_size self));
      destruct (Z.leb_spec (board_size self) 19);
      destruct (Z.leb_spec 9 (board_size self));
      destruct (Z.leb_spec (board_size self) 13); simpl; auto; lia. }
  assert (Hnz : ¬ (score self == 0)%Q).
  { unfold score.
    destruct Hkomi as [-> | ->];
      [apply (half_integer_nonzero 5 z)|apply (half_integer_nonzero 7 z)];
      done. }
  split; [done|]. split; [done|]. split.
  - destruct (sign_tests self)
      as [(_ & _ & _ & H)|[(_ & _ & _ & H)|(_ & _ & _ & H)]].
    + rewrite (get_reward_positive self H). destruct (_ =? _); auto.
    + rewrite (get_reward_negative self H). destruct (_ =? _); auto.
    + done.
  - unfold get_result_string. fold (score self).
    destruct (Qeqb (score self) 0) eqn:Heq; [|done].
    by apply Qeqb_eq in Heq.
Qed.

(** X12: the winner named by the result string and the reward.  The string
    starts with ["W+"] exactly when [komi + official_score] is positive,
    and with ["B+"] otherwise.  With white to move the reward is 1 exactly
    when the string names white; with black to move it is -1 exactly
    then.  On a score of zero the string names black the winner while the
    reward is 0. *)
Theorem result_string_winner (self : GoGame) :
  (String.prefix "W+" (get_result_string str self) = true
   ↔ (0 < score self)%Q)
  ∧ (String.prefix "B+" (get_result_string str self) = true
     ↔ (score self <= 0)%Q)
  ∧ (player_color self = pachi_py.WHITE →
     (get_reward self = 1
      ↔ String.prefix "W+" (get_result_string str self) = true))
  ∧ (player_color self = pachi_py.BLACK →
     (get_reward self = -1
      ↔ String.prefix "W+" (get_result_string str self) = true))
  ∧ ((score self == 0)%Q →
     String.prefix "B+" (get_result_string str self) = true
     ∧ get_reward self = 0).
Proof.
  assert (Hw : String.prefix "W+" (get_result_string str self)
               = Qgtb (score self) 0).
  { unfold get_result_string. fold (score self).
    destruct (Qeqb (score self) 0); destruct (Qgtb (score self) 0);
      simpl; try reflexivity; by destruct (str _). }
  assert (Hb : String.prefix "B+" (get_result_string str self)
               = negb (Qgtb (score self) 0)).
  { unfold get_result_string. fold (score self).
    destruct (Qeqb (score self) 0); destruct (Qgtb (score self) 0);
      simpl; try reflexivity; by destruct (str _). }
  rewrite Hw, Hb.
  destruct (sign_tests self)
    as [(-> & _ & _ & H)|[(-> & _ & _ & H)|(-> & _ & _ & H)]].
  - assert (Hn : ¬ (score self <= 0)%Q) by by apply Qlt_not_le.
    assert (Hz : ¬ (score self == 0)%Q)
      by (intros Hz; rewrite Hz in H; by apply Qlt_irrefl in H).
    rewrite (get_reward_positive self H).
    repeat split; intros;
      try match goal with Hc : player_color _ = _ |- _ => rewrite Hc end;
      done.
  - assert (Hn : ¬ (0 < score self)%Q)
      by (intros Hp; eapply Qlt_irrefl, Qlt_trans; eauto).
    assert (Hz : ¬ (score self == 0)%Q)
      by (intros Hz; rewrite Hz in H; by apply Qlt_irrefl in H).
    rewrite (get_reward_negative self H).
    repeat split; intros;
      try match goal with
          | Hc : player_color _ = _ |- _ => rewrite Hc in *
          end;
      try done; by apply Qlt_le_weak.
  - assert (Hn : ¬ (0 < score self)%Q)
      by (intros Hp; rewrite H in Hp; by apply Qlt_irrefl in Hp).
    rewrite (get_reward_zero self H).
    repeat split; intros; try done. rewrite H. apply Qle_refl.
Qed.

End Invariants.

Section ZeroSum.
Context `{E : pachi_py.Engine} {L : BoardLaws}.

Lemma score_set_player_color (v : Z) (self : GoGame) :
  score (set_player_color v self) = score self.
Proof. done. Qed.

(** X13: the reward is zero-sum.  On one and the same position the reward
    of the colour to move and the reward the other colour would get add
    up to zero: replacing [player_color] by [stone_other] of it negates
    [get_reward].  A colour code that is neither black's nor white's is
    never the winner: its reward is -1 on every score that is not
    zero. *)
Theorem reward_is_zero_sum (self : GoGame) :
  (player_color self = pachi_py.BLACK ∨ player_color self = pachi_py.WHITE →
   get_reward
     (set_player_color (pachi_py.stone_other (player_color self)) self)
   = - get_reward self)
  ∧ (player_color self ≠ pachi_py.BLACK →
     player_color self ≠ pachi_py.WHITE →
     ¬ (score self == 0)%Q → get_reward self = -1).
Proof.
  split.
  - intros Hc.
    destruct (sign_tests self)
      as [(_ & _ & _ & H)|[(_ & _ & _ & H)|(_ & _ & _ & H)]].
    + rewrite (get_reward_positive self H).
      rewrite get_reward_positive by (by rewrite score_set_player_color).
      simpl. destruct Hc as [-> | ->];
        by rewrite ?stone_other_BLACK, ?stone_other_WHITE.
    + rewrite (get_reward_negative self H).
      rewrite get_reward_negative by (by rewrite score_set_player_color).
      simpl. destruct Hc as [-> | ->];
        by rewrite ?stone_other_BLACK, ?stone_other_WHITE.
    + rewrite (get_reward_zero self H).
      rewrite get_reward_zero by (by rewrite score_set_player_color). done.
  - intros Hb Hw Hz.
    destruct (sign_tests self)
      as [(_ & _ & _ & H)|[(_ & _ & _ & H)|(_ & _ & _ & H)]].
    + rewrite (get_reward_positive self H).
      by destruct (Z.eqb_spec (player_color self) pachi_py.WHITE).
    + rewrite (get_reward_negative self H).
      by destruct (Z.eqb_spec (player_color self) pachi_py.BLACK).
    + done.
Qed.

End ZeroSum.

(** ** Legal moves *)

Section LegalMoves.
Context `{E : pachi_py.Engine} {LC : CodecLaws} {LB : BoardLaws}.

(** X3: the actions of [get_legal_actions] can be played.  In a game that
    is not over, when the engine's legal coordinates are sentinels or
    points of the board and the engine plays each of them,
    [get_legal_actions] returns, and [play_action] on any action of its
    list returns: the move played is the engine's legal coordinate the
    action came from, and the turn passes to the other colour. *)
Theorem legal_actions_are_playable (self : GoGame) :
  reachable self → done self = false →
  Forall (λ c, move_coord (board self) c
               ∧ ∃ b', pachi_py.play (board self) c (player_color self)
                       = Ok b')
    (pachi_py.get_legal_coords (board self) (player_color self) true) →
  ∃ actions,
    get_legal_actions self = Ok actions
    ∧ ∀ a, a ∈ actions →
        ∃ c s self',
          c ∈ pachi_py.get_legal_coords (board self) (player_color self) true
          ∧ _coord_to_action (board self) c = Ok a
          ∧ pachi_py.play (board self) c (player_color self)
            = Ok (board self')
          ∧ play_action a self
            = (Ok (s, pachi_py.is_terminal (board self')), self')
          ∧ player_color self'
            = pachi_py.stone_other (player_color self).
Proof.
  intros Hcons%reachable_consistent Hd Hlegal.
  destruct (legal_actions_back self) as (actions & Hget & Hall).
  { eapply Forall_impl; [exact Hlegal|]. by intros c [? _]. }
  exists actions. split; [done|].
  intros a [i Hi]%list_elem_of_lookup.
  destruct (Forall2_lookup_r _ _ _ _ _ Hall Hi) as (c & Hc & Ha & Hback & _).
  assert (Hin : c ∈ pachi_py.get_legal_coords (board self)
                      (player_color self) true)
    by by eapply list_elem_of_lookup_2.
  destruct (proj1 (Forall_forall _ _) Hlegal c Hin) as (_ & b' & Hp).
  destruct (play_action_moves self a c b' Hcons Hd Hback Hp)
    as (p & _ & _ & Hplay).
  match type of Hplay with _ = (Ok (?s, _), ?g) => exists c, s, g end.
  repeat split; done.
Qed.

End LegalMoves.

(** ** The small engine, continued *)

Lemma elem_of_concat {A} (x : A) (ls : list (list A)) :
  x ∈ concat ls → ∃ l, x ∈ l ∧ l ∈ ls.
Proof.
  induction ls as [|l ls IH]; simpl; [by intros ?%elem_of_nil|].
  intros [Hx|Hx]%elem_of_app.
  - exists l. split; [done|by left].
  - destruct (IH Hx) as (l' & ? & ?). exists l'. split; [done|by right].
Qed.

Lemma stub_point (b : Stub.board) (c : Z) :
  c ∈ concat (Stub.points b) →
  ∃ i j, 0 ≤ i < Stub.side b ∧ 0 ≤ j < Stub.side b
         ∧ c = (i + 1) * (Stub.side b + 2) + (j + 1)
         ∧ Stub.on_board b c = true.
Proof.
  intros (row & Hc & Hrow)%elem_of_concat.
  unfold Stub.points in Hrow.
  apply list_elem_of_fmap in Hrow as (i & -> & Hi).
  apply list_elem_of_fmap in Hc as (j & -> & Hj).
  apply elem_of_seqZ in Hi, Hj.
  exists i, j. repeat split; try lia.
  unfold Stub.on_board.
  destruct (div_mod_row (Stub.side b + 2) (i + 1) (j + 1)) as [-> ->];
    [lia|].
  apply andb_true_iff. split; [|lia].
  apply andb_true_iff. split; [|lia].
  apply andb_true_iff. split; lia.
Qed.

(** Every legal coordinate of the small engine names a move, and the
    engine plays it. *)
Lemma stub_legal_coords (b : Stub.board) (col : Z) :
  Forall (λ c, @move_coord Stub.engine b c
               ∧ ∃ b', Stub.play b c col = Ok b')
    (Stub.get_legal_coords b col true).
Proof.
  unfold Stub.get_legal_coords. apply Forall_app. split.
  - apply Forall_forall. intros c [Hfree Hc]%list_elem_of_filter.
    destruct (stub_point b c Hc) as (i & j & Hi & Hj & -> & Hon). split.
    + right; right. exists i, j. done.
    + unfold Stub.play. rewrite Hon, Hfree. simpl.
      destruct (Z.eqb_spec ((i + 1) * (Stub.side b + 2) + (j + 1))
                  Stub.PASS_COORD) as [Heq|]; [|eauto].
      unfold Stub.PASS_COORD in Heq. nia.
  - apply Forall_singleton. split; [by left|].
    unfold Stub.play. rewrite Z.eqb_refl. eauto.
Qed.

(** ** Witnesses on the small engine *)

Lemma opening_reachable : reachable opening.
Proof. exact (reachable_init "black" 9 opening opening_init). Qed.

Lemma get_legal_actions_round_trip_witness :
  ∃ actions, get_legal_actions opening = Ok actions
             ∧ length actions = 82%nat.
Proof.
  destruct (get_legal_actions_round_trip opening) as (actions & Hg & Hlen & _).
  - eapply Forall_impl; [apply stub_legal_coords|]. by intros c [? _].
  - exists actions. split; [done|]. rewrite Hlen. by vm_compute.
Defined.

Lemma play_action_exception_safe_witness :
  (play_action 200 opening).2 = opening.
Proof.
  apply (play_action_exception_safe opening _ 200 (Pachi IllegalMove)).
  - exact opening_reachable.
  - by vm_compute.
Defined.

Lemma play_action_step_witness :
  ∃ p, (play_action 40 opening).1
       = Ok (p :: take 15 (history opening) ++ [const_plane 9 1], false).
Proof.
  edestruct (play_action_step opening 40 60)
    as (p & next & _ & _ & Hb & _ & Hplay).
  - exact opening_reachable.
  - by vm_compute.
  - by vm_compute.
  - vm_compute. reflexivity.
  - exists p. rewrite Hplay. simpl. rewrite (Hb eq_refl). done.
Defined.

Lemma history_window_witness :
  history (play_actions [0; 81; 40] opening) !! 3%nat
  = history opening !! 0%nat.
Proof.
  apply (proj1 (proj2 (history_window opening [0; 81; 40] opening_reachable
                         ltac:(by vm_compute))) 3%nat).
  simpl. lia.
Defined.

Lemma reset_rebuilds_witness :
  ∃ g0, @__init__ Stub.engine "white" 9 = Ok g0
        ∧ reset (play_actions [0] opening) = (Ok (state g0), g0).
Proof.
  destruct (reset_rebuilds (play_actions [0] opening))
    as (color & g0 & Hc & Hi & Hr & _).
  - by apply reachable_play_actions, opening_reachable.
  - apply colormap_Ok in Hc as [[_ Hc]|[-> _]]; [by vm_compute in Hc|].
    exists g0. done.
Defined.

Lemma done_means_terminal_witness :
  pachi_py.is_terminal (board (play_actions [0; 81; 81] opening)) = true.
Proof.
  apply done_means_terminal.
  - by apply reachable_play_actions, opening_reachable.
  - by vm_compute.
Defined.

Lemma no_tie_on_standard_boards_witness :
  get_reward (play_actions [0] opening) = 1
  ∨ get_reward (play_actions [0] opening) = -1.
Proof.
  apply (no_tie_on_standard_boards (λ _, "?") (play_actions [0] opening) (-1)).
  - by apply reachable_play_actions, opening_reachable.
  - by vm_compute.
  - by vm_compute.
Defined.

Lemma legal_actions_are_playable_witness :
  ∃ actions, get_legal_actions opening = Ok actions
    ∧ ∀ a, a ∈ actions → ∃ r, (play_action a opening).1 = Ok r.
Proof.
  destruct (legal_actions_are_playable opening) as (actions & Hg & Hall).
  - exact opening_reachable.
  - by vm_compute.
  - apply stub_legal_coords.
  - exists actions. split; [done|]. intros a Ha.
    destruct (Hall a Ha) as (c & s & self' & _ & _ & _ & -> & _). eauto.
Defined.

Lemma reward_is_zero_sum_witness :
  get_reward
    (set_player_color
       (@pachi_py.stone_other Stub.engine (player_color opening)) opening)
  = - get_reward opening.
Proof. apply (proj1 (reward_is_zero_sum opening)). by left. Defined.

(** On the small engine, playing in place: the tensor the original of
    [two_games] returns for the centre point is left alone by later calls
    on the original and on the copy. *)
Lemma arrays_are_never_overwritten_witness :
  ∃ ls h1,
    (Store.play_action true 1%positive 40 two_games).1 = Ok (ls, false)
    ∧ h1 = (Store.play_action true 1%positive 40 two_games).2
    ∧ Store.arrays
        (Store.run_all true
           [(1%positive, Store.Play 0); (2%positive, Store.Play 40);
            (1%positive, Store.Reset)] h1) !! ls
      = Store.arrays h1 !! ls.
Proof.
  destruct (Store.play_action true 1%positive 40 two_games) as [r h1] eqn:Hp.
  destruct r as [[ls d]|e] eqn:Hr; [|by vm_compute in Hp].
  assert (d = false) as -> by (vm_compute in Hp; congruence).
  destruct (Store.view two_games 1%positive) as [g|] eqn:Hg;
    [|by vm_compute in Hg].
  destruct (proj2 (arrays_are_never_overwritten true two_games)
              1%positive 40 g ls false h1 Hg Hp)
    as (t & g' & o' & _ & Ht & _ & _ & Hlater).
  exists ls, h1. repeat split. by rewrite Hlater, Ht.
Defined.

(** On the small engine: zeros written into the copy of the state of the
    original of [two_games] do not show in the game. *)
Lemma get_states_is_a_copy_witness :
  ∃ l, (Store.get_states 1%positive two_games).1 = Ok l
       ∧ Store.view
           (Store.put_array l []
              (Store.get_states 1%positive two_games).2).2 1%positive
         = Store.view two_games 1%positive.
Proof.
  destruct (Store.view two_games 1%positive) as [g|] eqn:Hg;
    [|by vm_compute in Hg].
  destruct (get_states_is_a_copy true two_games 1%positive g Hg)
    as (l & o & Hget & _ & _ & _ & _ & _ & Hput & _).
  exists l. rewrite Hget. split; [done|].
  rewrite <- Hget. apply Hput.
Defined.

(** On the small engine, playing in place: a second game, for white, is
    constructed beside the game of [one_game]; a move and a reset on it
    leave the first game as it was. *)
Lemma constructed_game_is_independent_witness :
  ∃ self h1,
    Store.__init__ "white" 9 one_game = (Ok self, h1)
    ∧ Store.view
        (Store.run true self [Store.Play 0; Store.Reset] h1) 1%positive
      = Store.view one_game 1%positive.
Proof.
  destruct (constructed_game_is_independent true "white" 9 one_game
              {| Stub.side := 9; Stub.stones := []; Stub.passes := 0 |})
    as (self & h1 & g & Hinit & _ & _ & _ & Hall); [by right|lia|done|].
  assert (Hv : ∃ g2, Store.view one_game 1%positive = Some g2)
    by (eexists; by vm_compute).
  destruct Hv as [g2 Hg2].
  exists self, h1. split; [done|]. rewrite Hg2.
  exact (proj1 (proj2 (Hall 1%positive g2 _ Hg2))).
Defined.
